(** * xf86-video-cube: RGB565 -> YUY2 conversion and shadow refresh

    A shallow embedding of the algorithmic core of [src/cube_driver.c]:
    the lookup tables built by [initRGB2YUVTables], the conversion kernel
    [rgbrgb16toyuy2], the dirty-rectangle copy loop [CUBERefreshArea] and
    the blanking entry point [CUBESaveScreen].

    Machine integers are modelled as [Z] with the wrap-around written out.
    The driver targets the GameCube/Wii (32-bit PowerPC Linux):
    [unsigned long] is 32 bits wide and plain [char] is unsigned. *)

From Stdlib Require Import ZArith Lia Bool.
From stdpp Require Import base option list.

Local Open Scope Z_scope.

(** ** Machine integers *)

(** Conversion to [u8] ([unsigned char]). *)
Definition to_u8 (x : Z) : Z := x mod 2 ^ 8.

(** Conversion to [u16] ([unsigned short int]). *)
Definition to_u16 (x : Z) : Z := x mod 2 ^ 16.

(** Conversion to [u32] ([unsigned long int], 32 bits on the target). *)
Definition to_u32 (x : Z) : Z := x mod 2 ^ 32.

(** Conversion of a 32-bit pattern to [int] (two's complement). *)
Definition to_int (x : Z) : Z := (x + 2 ^ 31) mod 2 ^ 32 - 2 ^ 31.

(** Conversion of an [int] to [short], as when an [int] is stored into a
    coordinate of a [BoxRec]. *)
Definition to_short (x : Z) : Z := (x + 2 ^ 15) mod 2 ^ 16 - 2 ^ 15.

(** The cast [(char)x]: plain [char] is unsigned on PowerPC. *)
Definition to_char (x : Z) : Z := x mod 2 ^ 8.

(** What the same cast gives where plain [char] is signed (x86). *)
Definition to_schar (x : Z) : Z := (x + 2 ^ 7) mod 2 ^ 8 - 2 ^ 7.

Definition is_u16 (x : Z) : Prop := 0 <= x < 65536.

(** Byte [k] of a 32-bit word, byte 0 being the least significant one. *)
Definition byte_of (w : Z) (k : Z) : Z := Z.land (Z.shiftr w (8 * k)) 0xff.

(** Array read [a[i]]. Every read the driver makes from its tables is in
    bounds; outside the array the model reads 0. *)
Definition rd (a : list Z) (i : Z) : Z := default 0 (a !! Z.to_nat i).

(** ** Fixed-point coefficients *)

Definition RGB2YUV_SHIFT : Z := 16.
Definition RGB2YUV_LUMA : Z := 16.
Definition RGB2YUV_CHROMA : Z := 128.

(** [(int)(c * (1 << RGB2YUV_SHIFT))] for the decimal constant
    [c = num / 1000]: the conversion to [int] truncates toward zero. *)
Definition coef (num : Z) : Z := Z.quot (num * Z.shiftl 1 RGB2YUV_SHIFT) 1000.

Definition Yr : Z := coef 299.
Definition Yg : Z := coef 587.
Definition Yb : Z := coef 114.
Definition Ur : Z := coef (-169).
Definition Ug : Z := coef (-331).
Definition Ub : Z := coef 500.
Definition Vr : Z := coef 500.
Definition Vg : Z := coef (-419).
Definition Vb : Z := coef (-81).

(** The macro [clamp(x, y, z)]: [(z < x) ? x : ((z > y) ? y : z)]. *)
Definition clamp (x y z : Z) : Z :=
  if z <? x then x else if z >? y then y else z.

(** ** The lookup tables *)

(** The per-channel tables, [u32 t[256]]. [r_Vr] is a macro for [b_Ub]:
    there is no separate array for it. *)
Record chan_tables := {
  r_Yr : list Z;
  g_Yg_ : list Z;
  b_Yb : list Z;
  r_Ur : list Z;
  g_Ug_ : list Z;
  b_Ub : list Z;
  g_Vg_ : list Z;
  b_Vb : list Z
}.

(** The direct tables, [u8 t[1 << 16]]. *)
Record rgb16_tables := {
  RGB16toY : list Z;
  RGB16toU : list Z;
  RGB16toV : list Z
}.

Definition set_r_Yr (i : nat) (v : Z) (c : chan_tables) : chan_tables :=
  {| r_Yr := <[i := v]> (r_Yr c); g_Yg_ := g_Yg_ c; b_Yb := b_Yb c;
     r_Ur := r_Ur c; g_Ug_ := g_Ug_ c; b_Ub := b_Ub c;
     g_Vg_ := g_Vg_ c; b_Vb := b_Vb c |}.
Definition set_g_Yg_ (i : nat) (v : Z) (c : chan_tables) : chan_tables :=
  {| r_Yr := r_Yr c; g_Yg_ := <[i := v]> (g_Yg_ c); b_Yb := b_Yb c;
     r_Ur := r_Ur c; g_Ug_ := g_Ug_ c; b_Ub := b_Ub c;
     g_Vg_ := g_Vg_ c; b_Vb := b_Vb c |}.
Definition set_b_Yb (i : nat) (v : Z) (c : chan_tables) : chan_tables :=
  {| r_Yr := r_Yr c; g_Yg_ := g_Yg_ c; b_Yb := <[i := v]> (b_Yb c);
     r_Ur := r_Ur c; g_Ug_ := g_Ug_ c; b_Ub := b_Ub c;
     g_Vg_ := g_Vg_ c; b_Vb := b_Vb c |}.
Definition set_r_Ur (i : nat) (v : Z) (c : chan_tables) : chan_tables :=
  {| r_Yr := r_Yr c; g_Yg_ := g_Yg_ c; b_Yb := b_Yb c;
     r_Ur := <[i := v]> (r_Ur c); g_Ug_ := g_Ug_ c; b_Ub := b_Ub c;
     g_Vg_ := g_Vg_ c; b_Vb := b_Vb c |}.
Definition set_g_Ug_ (i : nat) (v : Z) (c : chan_tables) : chan_tables :=
  {| r_Yr := r_Yr c; g_Yg_ := g_Yg_ c; b_Yb := b_Yb c;
     r_Ur := r_Ur c; g_Ug_ := <[i := v]> (g_Ug_ c); b_Ub := b_Ub c;
     g_Vg_ := g_Vg_ c; b_Vb := b_Vb c |}.
Definition set_b_Ub (i : nat) (v : Z) (c : chan_tables) : chan_tables :=
  {| r_Yr := r_Yr c; g_Yg_ := g_Yg_ c; b_Yb := b_Yb c;
     r_Ur := r_Ur c; g_Ug_ := g_Ug_ c; b_Ub := <[i := v]> (b_Ub c);
     g_Vg_ := g_Vg_ c; b_Vb := b_Vb c |}.
Definition set_g_Vg_ (i : nat) (v : Z) (c : chan_tables) : chan_tables :=
  {| r_Yr := r_Yr c; g_Yg_ := g_Yg_ c; b_Yb := b_Yb c;
     r_Ur := r_Ur c; g_Ug_ := g_Ug_ c; b_Ub := b_Ub c;
     g_Vg_ := <[i := v]> (g_Vg_ c); b_Vb := b_Vb c |}.
Definition set_b_Vb (i : nat) (v : Z) (c : chan_tables) : chan_tables :=
  {| r_Yr := r_Yr c; g_Yg_ := g_Yg_ c; b_Yb := b_Yb c;
     r_Ur := r_Ur c; g_Ug_ := g_Ug_ c; b_Ub := b_Ub c;
     g_Vg_ := g_Vg_ c; b_Vb := <[i := v]> (b_Vb c) |}.
(** [r_Vr[i] = v] writes the array [b_Ub]. *)
Definition set_r_Vr := set_b_Ub.
Definition r_Vr := b_Ub.

(** Static storage starts out zeroed. *)
Definition chan_zero : chan_tables :=
  let z := replicate 256 0 in
  {| r_Yr := z; g_Yg_ := z; b_Yb := z; r_Ur := z; g_Ug_ := z; b_Ub := z;
     g_Vg_ := z; b_Vb := z |}.

Definition rgb16_len : nat := Z.to_nat 65536.

Definition rgb16_zero : rgb16_tables :=
  let z := replicate rgb16_len 0 in
  {| RGB16toY := z; RGB16toU := z; RGB16toV := z |}.

(** Body of the first loop of [initRGB2YUVTables]. The products are
    computed in [int] and stored into [u32] cells. *)
Definition init_chan_step (c : chan_tables) (n : nat) : chan_tables :=
  let i := Z.of_nat n in
  let c := set_r_Yr n (to_u32 (Yr * i)) c in
  let c := set_g_Yg_ n (to_u32 (Yg * i + Z.shiftl RGB2YUV_LUMA RGB2YUV_SHIFT)) c in
  let c := set_b_Yb n (to_u32 (Yb * i)) c in
  let c := set_r_Ur n (to_u32 (Ur * i)) c in
  let c := set_g_Ug_ n (to_u32 (Ug * i + Z.shiftl RGB2YUV_CHROMA RGB2YUV_SHIFT)) c in
  let c := set_b_Ub n (to_u32 (Ub * i)) c in
  let c := set_r_Vr n (to_u32 (Vr * i)) c in
  let c := set_g_Vg_ n (to_u32 (Vg * i + Z.shiftl RGB2YUV_CHROMA RGB2YUV_SHIFT)) c in
  let c := set_b_Vb n (to_u32 (Vb * i)) c in
  c.

(** RGB565 field extraction and the bit-replicating scaling to 8 bits. *)
Definition red8 (i : Z) : Z :=
  let r := Z.land (Z.shiftr i 11) 0x1f in Z.lor (Z.shiftl r 3) (Z.shiftr r 2).
Definition green8 (i : Z) : Z :=
  let g := Z.land (Z.shiftr i 5) 0x3f in Z.lor (Z.shiftl g 2) (Z.shiftr g 4).
Definition blue8 (i : Z) : Z :=
  let b := Z.land (Z.shiftr i 0) 0x1f in Z.lor (Z.shiftl b 3) (Z.shiftr b 2).

(** [(x + y + z) >> RGB2YUV_SHIFT] on [u32] operands. *)
Definition sum3_shift (x y z : Z) : Z :=
  Z.shiftr (to_u32 (to_u32 (x + y) + z)) RGB2YUV_SHIFT.

Definition Y_entry (c : chan_tables) (i : Z) : Z :=
  let r := red8 i in let g := green8 i in let b := blue8 i in
  to_u8 (clamp 16 235 (sum3_shift (rd (r_Yr c) r) (rd (g_Yg_ c) g) (rd (b_Yb c) b))).
Definition U_entry (c : chan_tables) (i : Z) : Z :=
  let r := red8 i in let g := green8 i in let b := blue8 i in
  to_u8 (clamp 16 240 (sum3_shift (rd (r_Ur c) r) (rd (g_Ug_ c) g) (rd (b_Ub c) b))).
Definition V_entry (c : chan_tables) (i : Z) : Z :=
  let r := red8 i in let g := green8 i in let b := blue8 i in
  to_u8 (clamp 16 240 (sum3_shift (rd (r_Vr c) r) (rd (g_Vg_ c) g) (rd (b_Vb c) b))).

(** Body of the second loop of [initRGB2YUVTables]. *)
Definition init_rgb16_step (c : chan_tables) (t : rgb16_tables) (n : nat)
  : rgb16_tables :=
  let i := Z.of_nat n in
  {| RGB16toY := <[n := Y_entry c i]> (RGB16toY t);
     RGB16toU := <[n := U_entry c i]> (RGB16toU t);
     RGB16toV := <[n := V_entry c i]> (RGB16toV t) |}.

Definition init_chan : chan_tables :=
  fold_left init_chan_step (seq 0 256) chan_zero.

(** [initRGB2YUVTables]: the contents of the three direct tables after
    both loops have run on zeroed storage. *)
Definition initRGB2YUVTables : rgb16_tables :=
  fold_left (init_rgb16_step init_chan) (seq 0 rgb16_len) rgb16_zero.

(** ** The conversion kernel *)

(** The mean pixel of the general case:
    [(((rgb1 >> 1) & ~0x8410) + ((rgb2 >> 1) & ~0x8410))
       + ((rgb1 & rgb2) & 0x0841)], stored into a [u16]. *)
Definition mean_rgb565 (rgb1 rgb2 : Z) : Z :=
  to_u16 ((Z.land (Z.shiftr rgb1 1) (Z.lnot 0x8410)
           + Z.land (Z.shiftr rgb2 1) (Z.lnot 0x8410))
          + Z.land (Z.land rgb1 rgb2) 0x0841).

(** The return expression: four [(char)] casts shifted into place. *)
Definition pack_yuy2 (Y1 Cb Y2 Cr : Z) : Z :=
  to_u32 (Z.lor (Z.lor (Z.lor (Z.shiftl (to_char Y1) 24)
                              (Z.shiftl (to_char Cb) 16))
                       (Z.shiftl (to_char Y2) 8))
                (Z.shiftl (to_char Cr) 0)).

(** The pixel whose chroma is looked up. *)
Definition chroma_pixel (rgb1 rgb2 : Z) : Z :=
  if rgb1 =? rgb2 then rgb1 else mean_rgb565 rgb1 rgb2.

(** The part of [rgbrgb16toyuy2] below the zero test: both branches of
    [if (rgb1 == rgb2)] followed by the return expression. *)
Definition yuy2_from_tables (t : rgb16_tables) (rgb1 rgb2 : Z) : Z :=
  if rgb1 =? rgb2 then
    let Y1 := rd (RGB16toY t) rgb1 in
    let Cb := rd (RGB16toU t) rgb1 in
    let Cr := rd (RGB16toV t) rgb1 in
    pack_yuy2 Y1 Cb Y1 Cr
  else
    let Y1 := rd (RGB16toY t) rgb1 in
    let Y2 := rd (RGB16toY t) rgb2 in
    let rgb := mean_rgb565 rgb1 rgb2 in
    let Cb := rd (RGB16toU t) rgb in
    let Cr := rd (RGB16toV t) rgb in
    pack_yuy2 Y1 Cb Y2 Cr.

Definition rgbrgb16toyuy2 (t : rgb16_tables) (rgb1 rgb2 : Z) : Z :=
  if Z.lor rgb1 rgb2 =? 0 then 0x00800080
  else yuy2_from_tables t rgb1 rgb2.

(** RGB565 fields of a pixel. *)
Definition red5 (p : Z) : Z := Z.land (Z.shiftr p 11) 0x1f.
Definition green6 (p : Z) : Z := Z.land (Z.shiftr p 5) 0x3f.
Definition blue5 (p : Z) : Z := Z.land p 0x1f.

(** ** Surfaces and the refresh loop *)

(** A [BoxRec]: [short] coordinates, so [int] arithmetic on them cannot
    overflow. *)
Record BoxRec := { x1 : Z; y1 : Z; x2 : Z; y2 : Z }.

(** The fields of [CUBERec] (and of the screen's current mode) that the
    refresh path uses. The shadow buffer is held as its 16-bit pixels and
    the mapped frame buffer as its 32-bit words ([mapped_memlen] is four
    times the length of [mapped_mem]); the two buffers are distinct
    allocations ([xnfalloc] and [mmap]). *)
Record CUBERec := {
  ShadowPtr : list Z;
  ShadowPitch : Z;
  Blanked : bool;
  mapped_mem : list Z;
  VDisplay : Z
}.

Definition set_mapped_mem (m : list Z) (s : CUBERec) : CUBERec :=
  {| ShadowPtr := ShadowPtr s; ShadowPitch := ShadowPitch s;
     Blanked := Blanked s; mapped_mem := m; VDisplay := VDisplay s |}.

Definition set_Blanked (b : bool) (s : CUBERec) : CUBERec :=
  {| ShadowPtr := ShadowPtr s; ShadowPitch := ShadowPitch s;
     Blanked := b; mapped_mem := mapped_mem s; VDisplay := VDisplay s |}.

(** Pointers into a buffer are byte offsets from its start. An access
    outside the buffer, or one that is not aligned to its element, has no
    defined result: the model returns [None]. *)
Definition load16 (buf : list Z) (off : Z) : option Z :=
  if (0 <=? off) && (off mod 2 =? 0) then buf !! Z.to_nat (off / 2)
  else None.

Definition store32 (buf : list Z) (off : Z) (v : Z) : option (list Z) :=
  if (0 <=? off) && (off mod 4 =? 0) && (off / 4 <? Z.of_nat (length buf))
  then Some (<[Z.to_nat (off / 4) := v]> buf)
  else None.

(** The innermost loop, [while (i--)], for a count [i >= 0]: read the two
    pixels [rgb[0]], [rgb[1]] at [src32], store their macropixel at
    [dst32], advance both pointers by one 32-bit word. *)
Fixpoint pair_loop (t : rgb16_tables) (shadow : list Z) (i : nat)
    (src32 dst32 : Z) (out : list Z) : option (Z * Z * list Z) :=
  match i with
  | O => Some (src32, dst32, out)
  | S i' =>
      rgb0 ← load16 shadow src32;
      rgb1 ← load16 shadow (src32 + 2);
      out' ← store32 out dst32 (rgbrgb16toyuy2 t rgb0 rgb1);
      pair_loop t shadow i' (src32 + 4) (dst32 + 4) out'
  end.

(** A [while (n--)] loop entered with [n < 0] keeps going until the
    counter wraps; its body runs off the end of both buffers long before
    that, so the model has no result for it. *)
Definition count (n : Z) : option nat :=
  if n <? 0 then None else Some (Z.to_nat n).

(** [while (height--) { i = width / 2; ...; dst32 += mod32;
    src32 += mod32; }] for a count [height >= 0]. *)
Fixpoint row_loop (t : rgb16_tables) (shadow : list Z) (height : nat)
    (width mod32 : Z) (src32 dst32 : Z) (out : list Z) : option (list Z) :=
  match height with
  | O => Some out
  | S h =>
      i ← count (Z.quot width 2);
      '(src32', dst32', out') ← pair_loop t shadow i src32 dst32 out;
      row_loop t shadow h width mod32
               (src32' + 4 * mod32) (dst32' + 4 * mod32) out'
  end.

(** One iteration of [while (num--)]: the work done for one box. *)
Definition refresh_box (t : rgb16_tables) (shadow : list Z) (pitch : Z)
    (pbox : BoxRec) (out : list Z) : option (list Z) :=
  let left := Z.land (x1 pbox) (Z.lnot 1) in
  let width := Z.land (x2 pbox + 1) (Z.lnot 1) in
  let height := y2 pbox - y1 pbox in
  let src := to_u32 (y1 pbox * pitch) + left * 2 in
  let dst := to_u32 (y1 pbox * pitch) + left * 2 in
  let mod_ := to_int (to_u32 (pitch - width * 2)) in
  let mod32 := Z.quot mod_ 4 in
  h ← count height;
  row_loop t shadow h width mod32 src dst out.

Fixpoint refresh_boxes (t : rgb16_tables) (shadow : list Z) (pitch : Z)
    (boxes : list BoxRec) (out : list Z) : option (list Z) :=
  match boxes with
  | [] => Some out
  | pbox :: rest =>
      out' ← refresh_box t shadow pitch pbox out;
      refresh_boxes t shadow pitch rest out'
  end.

(** [CUBERefreshArea(pScrn, num, pbox)], the boxes given as a list. *)
Definition CUBERefreshArea (t : rgb16_tables) (boxes : list BoxRec)
    (s : CUBERec) : option CUBERec :=
  if Blanked s then Some s
  else
    out ← refresh_boxes t (ShadowPtr s) (ShadowPitch s) boxes (mapped_mem s);
    Some (set_mapped_mem out s).

(** [CUBERefreshAll]: one box over the whole screen, 640 wide. The height
    [pScrn->currentMode->VDisplay], an [int], is stored into the [short]
    field [box.y2]. *)
Definition CUBERefreshAll (t : rgb16_tables) (s : CUBERec) : option CUBERec :=
  let box := {| x1 := 0; x2 := 640; y1 := 0; y2 := to_short (VDisplay s) |} in
  CUBERefreshArea t [box] s.

(** [memset(pCube->mapped_mem, 0, pCube->mapped_memlen)]. *)
Definition memset_mapped (s : CUBERec) : CUBERec :=
  set_mapped_mem (replicate (length (mapped_mem s)) 0) s.

(** [CUBESaveScreen], given the value of [xf86IsUnblank(mode)]. *)
Definition CUBESaveScreen (t : rgb16_tables) (unblank : bool) (s : CUBERec)
  : option CUBERec :=
  let s := set_Blanked (negb unblank) s in
  if unblank then CUBERefreshAll t s else Some (memset_mapped s).

(** ** Vocabulary of the statements *)

Definition is_byte (x : Z) : Prop := 0 <= x < 256.

(** The packing with the four [(char)] casts left out. *)
Definition pack_nocast (Y1 Cb Y2 Cr : Z) : Z :=
  to_u32 (Z.lor (Z.lor (Z.lor (Z.shiftl Y1 24) (Z.shiftl Cb 16))
                       (Z.shiftl Y2 8))
                (Z.shiftl Cr 0)).

(** Word [w] has the byte layout [[Y_left, Cb, Y_right, Cr]], most
    significant byte first, for the table values of the pair. *)
Definition yuy2_layout (t : rgb16_tables) (rgb1 rgb2 w : Z) : Prop :=
  byte_of w 3 = rd (RGB16toY t) rgb1
  /\ byte_of w 2 = rd (RGB16toU t) (chroma_pixel rgb1 rgb2)
  /\ byte_of w 1 = rd (RGB16toY t) rgb2
  /\ byte_of w 0 = rd (RGB16toV t) (chroma_pixel rgb1 rgb2).

(** Two runs of the same writes, one on a buffer that started as [b1] and
    one on a buffer that started as [b2], have reached [o1] and [o2]: at
    every index the two agree, or neither has been written yet. *)
Definition same_writes (b1 b2 o1 o2 : list Z) : Prop :=
  length o1 = length b1 /\ length o2 = length b2 /\ length b1 = length b2
  /\ forall k : nat,
       o1 !! k = o2 !! k \/ (o1 !! k = b1 !! k /\ o2 !! k = b2 !! k).

(** The macropixel of output word [k] when both buffers are walked in
    step: the conversion of shadow pixels [2k] and [2k + 1]. *)
Definition pair_word (t : rgb16_tables) (shadow : list Z) (k : nat) : Z :=
  rgbrgb16toyuy2 t (rd shadow (Z.of_nat (2 * k)))
                   (rd shadow (Z.of_nat (2 * k + 1))).

(** The screen as [CUBEModeInit] leaves it ([mapped_mem] zero-filled,
    [Blanked] false) under an all-black shadow, 640 pixels wide. *)
Definition black_surface (rows : Z) : CUBERec :=
  {| ShadowPtr := replicate (Z.to_nat (640 * rows)) 0;
     ShadowPitch := 1280;
     Blanked := false;
     mapped_mem := replicate (Z.to_nat (320 * rows)) 0;
     VDisplay := rows |}.

(** The same screen once every macropixel has been converted. *)
Definition black_frame (rows : Z) : CUBERec :=
  set_mapped_mem (replicate (Z.to_nat (320 * rows)) 0x00800080)
                 (black_surface rows).

(** The box of the alignment scenario. *)
Definition scenario_box : BoxRec := {| x1 := 3; y1 := 10; x2 := 9; y2 := 12 |}.

(** Output rows 0 to 11 after the scenario: words [3201..3205] and
    [3521..3525] hold black macropixels, that is word columns 1 to 5, or
    pixel columns 2 to 11, of rows 10 and 11 (a row is 320 words). *)
Definition scenario_rows : list Z :=
  replicate (Z.to_nat 3201) 0 ++ replicate 5 0x00800080
  ++ replicate (Z.to_nat 315) 0 ++ replicate 5 0x00800080
  ++ replicate (Z.to_nat 314) 0.

(** The whole output: rows 12 to 479 stay zero. *)
Definition scenario_output : list Z :=
  scenario_rows ++ replicate (Z.to_nat (320 * 468)) 0.

(** ** Vocabulary of the further properties *)

(** Output buffer [o] comes from [base] by writes that put at a word the
    macropixel of the two shadow pixels at the same position. *)
Definition written_ok (t : rgb16_tables) (shadow base o : list Z) : Prop :=
  length o = length base
  /\ forall k : nat,
       o !! k = base !! k \/ o !! k = Some (pair_word t shadow k).

(** A second box, on row 11, overlapping the scenario box. *)
Definition row11_box : BoxRec := {| x1 := 0; y1 := 11; x2 := 6; y2 := 12 |}.

(** Output rows 0 to 11 after both boxes: words 1 to 5 of row 10 and
    words 0 to 5 of row 11 are black macropixels. *)
Definition two_box_rows : list Z :=
  replicate (Z.to_nat 3201) 0 ++ replicate 5 0x00800080
  ++ replicate (Z.to_nat 314) 0 ++ replicate 6 0x00800080
  ++ replicate (Z.to_nat 314) 0.

(** The fixed-point colour formulas the tables stand for, on 8-bit
    channels, in plain integer arithmetic. *)
Definition luma_fixed (r g b : Z) : Z :=
  (Yr * r + Yg * g + Yb * b + RGB2YUV_LUMA * 2 ^ 16) / 2 ^ 16.
Definition cb_fixed (r g b : Z) : Z :=
  (Ur * r + Ug * g + Ub * b + RGB2YUV_CHROMA * 2 ^ 16) / 2 ^ 16.
Definition cr_fixed (r g b : Z) : Z :=
  (Vr * r + Vg * g + Vb * b + RGB2YUV_CHROMA * 2 ^ 16) / 2 ^ 16.

(** [initRGB2YUVTables] run on storage that already holds the tables
    [c0] and [t0] (the function runs at every mode initialisation). *)
Definition initRGB2YUVTables_on (c0 : chan_tables) (t0 : rgb16_tables)
  : chan_tables * rgb16_tables :=
  let c := fold_left init_chan_step (seq 0 256) c0 in
  (c, fold_left (init_rgb16_step c) (seq 0 rgb16_len) t0).

(** The arrays have their declared sizes. *)
Definition chan_sized (c : chan_tables) : Prop :=
  length (r_Yr c) = 256%nat /\ length (g_Yg_ c) = 256%nat
  /\ length (b_Yb c) = 256%nat /\ length (r_Ur c) = 256%nat
  /\ length (g_Ug_ c) = 256%nat /\ length (b_Ub c) = 256%nat
  /\ length (g_Vg_ c) = 256%nat /\ length (b_Vb c) = 256%nat.

Definition rgb16_sized (t : rgb16_tables) : Prop :=
  length (RGB16toY t) = rgb16_len /\ length (RGB16toU t) = rgb16_len
  /\ length (RGB16toV t) = rgb16_len.

(** [pCube->ShadowPitch = ((virtualX * bitsPerPixel >> 3) + 3) & ~3L] in
    [CUBEScreenInit], stored into a [u32]. *)
Definition shadow_pitch (virtualX bitsPerPixel : Z) : Z :=
  to_u32 (Z.land (Z.shiftr (virtualX * bitsPerPixel) 3 + 3) (Z.lnot 3)).

(** Conversion to [long] (32 bits on the target). *)
Definition to_long (x : Z) : Z := to_int x.

(** [pCube->mapped_offset] as [initFrameBuffer] computes it from
    [finfo.smem_start] and the page size:
    [((long)smem_start) - (((long)smem_start) & ~(pagesize - 1))]. *)
Definition mapped_offset_of (smem_start pagesize : Z) : Z :=
  to_long (to_long smem_start
           - Z.land (to_long smem_start) (Z.lnot (pagesize - 1))).

(** ** Mode initialisation, restore and power management *)

(** What the operating system answers to the calls that one run of
    [initFrameBuffer] makes. *)
Record fb_env := {
  open_result : Z;                 (* open(fbdev, O_RDWR, 0) *)
  fscreeninfo_result : Z;          (* ioctl(FBIOGET_FSCREENINFO) *)
  packed_pixels : bool;            (* finfo.type is FB_TYPE_PACKED_PIXELS *)
  truecolor : bool;                (* finfo.visual is FB_VISUAL_TRUECOLOR *)
  smem_start : Z;                  (* finfo.smem_start *)
  smem_len : Z;                    (* finfo.smem_len *)
  pagesize : Z;                    (* sysconf(_SC_PAGESIZE) *)
  mmap_result : option (list Z);   (* None for MAP_FAILED, else the words mapped *)
  vscreeninfo_result : Z           (* ioctl(FBIOGET_VSCREENINFO) *)
}.

(** The fields of a [DisplayModeRec] that [CUBEModeInit] reads;
    [Flags_interlace] is the test [mode->Flags & V_INTERLACE]. *)
Record DisplayMode := {
  Flags_interlace : bool;
  HDisplay : Z;
  mode_VDisplay : Z
}.

(** The values of [PowerManagementMode] that the switch names;
    [DPMSModeNone] stands for any other value, such as the initial -1 of
    [oldmode]. *)
Inductive dpms_mode :=
  DPMSModeOn | DPMSModeStandby | DPMSModeSuspend | DPMSModeOff | DPMSModeNone.

Definition is_off (m : dpms_mode) : bool :=
  match m with DPMSModeOff => true | _ => false end.

(** The driver state these functions work on: the record of the refresh
    path, [CubeInitiated], whether [mapped_mem] is non-NULL (when it is
    NULL the record holds no words), the [s32] field [mapped_memlen], the
    global tables, the current mode's interlace flag and width (its
    height is [VDisplay]) and the static [oldmode] of
    [CUBEDisplayPowerManagementSet]. While the mapping exists its
    [mapped_memlen] bytes are the words of [mapped_mem], as in [CUBERec];
    the field is read where the mapping may be NULL. *)
Record DrvRec := {
  cube : CUBERec;
  CubeInitiated : bool;
  mem_mapped : bool;
  mapped_memlen : Z;
  tables : chan_tables * rgb16_tables;
  cur_interlace : bool;
  cur_HDisplay : Z;
  oldmode : dpms_mode
}.

Definition set_cube (c : CUBERec) (d : DrvRec) : DrvRec :=
  {| cube := c; CubeInitiated := CubeInitiated d; mem_mapped := mem_mapped d;
     mapped_memlen := mapped_memlen d;
     tables := tables d; cur_interlace := cur_interlace d;
     cur_HDisplay := cur_HDisplay d; oldmode := oldmode d |}.
Definition set_CubeInitiated (b : bool) (d : DrvRec) : DrvRec :=
  {| cube := cube d; CubeInitiated := b; mem_mapped := mem_mapped d;
     mapped_memlen := mapped_memlen d;
     tables := tables d; cur_interlace := cur_interlace d;
     cur_HDisplay := cur_HDisplay d; oldmode := oldmode d |}.
Definition set_mem_mapped (b : bool) (d : DrvRec) : DrvRec :=
  {| cube := cube d; CubeInitiated := CubeInitiated d; mem_mapped := b;
     mapped_memlen := mapped_memlen d;
     tables := tables d; cur_interlace := cur_interlace d;
     cur_HDisplay := cur_HDisplay d; oldmode := oldmode d |}.
Definition set_tables (t : chan_tables * rgb16_tables) (d : DrvRec) : DrvRec :=
  {| cube := cube d; CubeInitiated := CubeInitiated d;
     mem_mapped := mem_mapped d;
     mapped_memlen := mapped_memlen d; tables := t;
     cur_interlace := cur_interlace d; cur_HDisplay := cur_HDisplay d;
     oldmode := oldmode d |}.
Definition set_oldmode (m : dpms_mode) (d : DrvRec) : DrvRec :=
  {| cube := cube d; CubeInitiated := CubeInitiated d;
     mem_mapped := mem_mapped d;
     mapped_memlen := mapped_memlen d; tables := tables d;
     cur_interlace := cur_interlace d; cur_HDisplay := cur_HDisplay d;
     oldmode := m |}.
Definition set_mapped_memlen (n : Z) (d : DrvRec) : DrvRec :=
  {| cube := cube d; CubeInitiated := CubeInitiated d;
     mem_mapped := mem_mapped d; mapped_memlen := n; tables := tables d;
     cur_interlace := cur_interlace d; cur_HDisplay := cur_HDisplay d;
     oldmode := oldmode d |}.

(** [pScrn->currentMode]. *)
Definition current_mode (d : DrvRec) : DisplayMode :=
  {| Flags_interlace := cur_interlace d; HDisplay := cur_HDisplay d;
     mode_VDisplay := VDisplay (cube d) |}.

(** [memset(pCube->mapped_mem, 0, pCube->mapped_memlen)] where the mapping
    may be NULL. Through a mapping its bytes are zero-filled. Through NULL
    a call of length 0 writes nothing and returns (under NULL the record
    holds no words); with another length, writing through NULL has no
    defined result. *)
Definition drv_memset (d : DrvRec) : option DrvRec :=
  if mem_mapped d then Some (set_cube (memset_mapped (cube d)) d)
  else if mapped_memlen d =? 0
       then Some (set_cube (set_mapped_mem [] (cube d)) d)
       else None.

(** [finfo.smem_len + pCube->mapped_offset], as stored into the [s32]
    field [mapped_memlen]. *)
Definition fb_memlen (e : fb_env) : Z :=
  to_long (smem_len e + mapped_offset_of (smem_start e) (pagesize e)).

(** [initFrameBuffer]: the return value and the state left behind. The
    early returns leave [mapped_mem] and [mapped_memlen] as they were;
    [mapped_memlen] is assigned before [mmap] is called and keeps its
    value when [mmap] fails. The words the operating system maps are those
    of the [mapped_memlen] bytes asked for. *)
Definition initFrameBuffer (e : fb_env) (d : DrvRec) : Z * DrvRec :=
  let d := set_tables (initRGB2YUVTables_on (fst (tables d)) (snd (tables d))) d in
  if open_result e <? 0 then (-1, d)
  else if fscreeninfo_result e <? 0 then (-1, d)
  else if negb (packed_pixels e) then (-1, d)
  else if negb (truecolor e) then (-1, d)
  else
    let d := set_mapped_memlen (fb_memlen e) d in
    match mmap_result e with
    | None =>
        (-1, set_mem_mapped false (set_cube (set_mapped_mem [] (cube d)) d))
    | Some m =>
        let d := set_mem_mapped true (set_cube (set_mapped_mem m (cube d)) d) in
        if vscreeninfo_result e <? 0 then (-1, d) else (1, d)
    end.

(** [CUBEModeInit(pScrn, mode)]: the [Bool] returned and the state. *)
Definition CUBEModeInit (e : fb_env) (mode : DisplayMode) (d : DrvRec)
  : option (bool * DrvRec) :=
  if Flags_interlace mode then Some (false, d)
  else
    let width := HDisplay mode in
    let height := mode_VDisplay mode in
    let match_ := (width =? 640) && ((height =? 480) || (height =? 576)) in
    if negb match_ then Some (true, d)
    else
      let '(ret, d) := initFrameBuffer e d in
      if ret =? 0 then Some (false, d)
      else
        d ← drv_memset d;
        let d := set_cube (set_Blanked false (cube d)) d in
        Some (true, set_CubeInitiated true d).

(** [CUBERestore]. *)
Definition CUBERestore (d : DrvRec) : option DrvRec :=
  if negb (CubeInitiated d) then Some d
  else
    let d := set_CubeInitiated false d in
    let d := set_cube (set_Blanked true (cube d)) d in
    drv_memset d.

(** [CUBEEnterVT] and [CUBELeaveVT]. *)
Definition CUBEEnterVT (e : fb_env) (d : DrvRec) : option (bool * DrvRec) :=
  CUBEModeInit e (current_mode d) d.
Definition CUBELeaveVT (d : DrvRec) : option DrvRec := CUBERestore d.

(** [CUBEDisplayPowerManagementSet]; [e] is what the operating system
    answers if the frame buffer is initialised again. *)
Definition CUBEDisplayPowerManagementSet (e : fb_env)
    (PowerManagementMode : dpms_mode) (d : DrvRec) : option DrvRec :=
  d ← (if is_off (oldmode d) && negb (is_off PowerManagementMode)
       then snd <$> CUBEModeInit e (current_mode d) d
       else Some d);
  d ← match PowerManagementMode with
      | DPMSModeOn =>
          c ← CUBERefreshAll (snd (tables d)) (set_Blanked false (cube d));
          Some (set_cube c d)
      | DPMSModeStandby | DPMSModeSuspend =>
          drv_memset (set_cube (set_Blanked true (cube d)) d)
      | DPMSModeOff => CUBERestore d
      | DPMSModeNone => Some d
      end;
  Some (set_oldmode PowerManagementMode d).

(** The sizes [CUBEModeInit] accepts. *)
Definition mode_supported (mode : DisplayMode) : bool :=
  (HDisplay mode =? 640)
  && ((mode_VDisplay mode =? 480) || (mode_VDisplay mode =? 576)).

(** Every word of a buffer is zero. *)
Definition all_zero (buf : list Z) : Prop :=
  forall (k : nat) (w : Z), buf !! k = Some w -> w = 0.

(** Test values: the driver before its first mode initialisation, on the
    640 x 480 black screen with nothing mapped and zeroed tables; an
    operating system that maps the words [m]; one without the device; a
    mode of unsupported size. *)
Definition fresh_driver : DrvRec :=
  {| cube := set_mapped_mem [] (black_surface 480);
     CubeInitiated := false; mem_mapped := false; mapped_memlen := 0;
     tables := (chan_zero, rgb16_zero);
     cur_interlace := false; cur_HDisplay := 640; oldmode := DPMSModeNone |}.

Definition fb_ok (m : list Z) : fb_env :=
  {| open_result := 3; fscreeninfo_result := 0; packed_pixels := true;
     truecolor := true; smem_start := 0;
     smem_len := 4 * Z.of_nat (length m); pagesize := 4096;
     mmap_result := Some m; vscreeninfo_result := 0 |}.

Definition fb_no_device : fb_env :=
  {| open_result := -1; fscreeninfo_result := -1; packed_pixels := false;
     truecolor := false; smem_start := 0; smem_len := 0; pagesize := 4096;
     mmap_result := None; vscreeninfo_result := -1 |}.

Definition mode_800x600 : DisplayMode :=
  {| Flags_interlace := false; HDisplay := 800; mode_VDisplay := 600 |}.

(** The driver after a mode initialisation that mapped [m]. *)
Definition initiated_driver (m : list Z) : DrvRec :=
  {| cube := set_mapped_mem (replicate (length m) 0) (black_surface 480);
     CubeInitiated := true; mem_mapped := true;
     mapped_memlen := fb_memlen (fb_ok m);
     tables := initRGB2YUVTables_on chan_zero rgb16_zero;
     cur_interlace := false; cur_HDisplay := 640; oldmode := DPMSModeNone |}.

(** The driver when a mode initialisation has found no device: marked
    initiated and active, with nothing mapped. *)
Definition undetected_driver : DrvRec :=
  {| cube := set_mapped_mem [] (black_surface 480);
     CubeInitiated := true; mem_mapped := false; mapped_memlen := 0;
     tables := initRGB2YUVTables_on chan_zero rgb16_zero;
     cur_interlace := false; cur_HDisplay := 640; oldmode := DPMSModeNone |}.

(** The words a mode initialisation maps in the test runs: garbage. *)
Definition mapped_garbage : list Z := replicate (Z.to_nat (320 * 480)) 7.

(** The initiated 640 x 480 driver after power mode Off. *)
Definition off_driver : DrvRec :=
  {| cube := set_Blanked true
               (set_mapped_mem (replicate (length mapped_garbage) 0)
                               (black_surface 480));
     CubeInitiated := false; mem_mapped := true;
     mapped_memlen := fb_memlen (fb_ok mapped_garbage);
     tables := initRGB2YUVTables_on chan_zero rgb16_zero;
     cur_interlace := false; cur_HDisplay := 640; oldmode := DPMSModeOff |}.

(** And after power mode On has followed. *)
Definition on_driver : DrvRec :=
  {| cube := black_frame 480; CubeInitiated := true; mem_mapped := true;
     mapped_memlen := fb_memlen (fb_ok mapped_garbage);
     tables := initRGB2YUVTables_on
                 (fst (initRGB2YUVTables_on chan_zero rgb16_zero))
                 (snd (initRGB2YUVTables_on chan_zero rgb16_zero));
     cur_interlace := false; cur_HDisplay := 640; oldmode := DPMSModeOn |}.

(** * Properties *)

(** ** Bit-level facts *)

Lemma lor_hi_lo (n hi lo : Z) :
  0 <= n -> hi mod 2 ^ n = 0 -> 0 <= lo < 2 ^ n -> Z.lor hi lo = hi + lo.
Proof.
  intros Hn Hhi Hlo.
  assert (Hdis : Z.land hi lo = 0).
  { apply Z.bits_inj'. intros m Hm.
    rewrite Z.land_spec, Z.bits_0.
    destruct (Z.lt_ge_cases m n) as [Hlt | Hge].
    - rewrite <- (Z.mod_pow2_bits_low hi n m) by lia.
      rewrite Hhi, Z.bits_0. reflexivity.
    - rewrite <- (Z.mod_small lo (2 ^ n)) by lia.
      rewrite Z.mod_pow2_bits_high by lia.
      apply andb_false_r. }
  rewrite <- Z.lxor_lor by exact Hdis.
  symmetry. apply Z.add_nocarry_lxor. exact Hdis.
Qed.

Lemma byte_of_div (w k : Z) : 0 <= k -> byte_of w k = (w / 2 ^ (8 * k)) mod 256.
Proof.
  intros Hk. unfold byte_of.
  rewrite Z.shiftr_div_pow2 by lia.
  change 0xff with (Z.ones 8). rewrite Z.land_ones by lia. reflexivity.
Qed.

Lemma to_char_byte (x : Z) : is_byte x -> to_char x = x.
Proof. intros H. unfold to_char. apply Z.mod_small. exact H. Qed.

Lemma to_u8_byte (x : Z) : is_byte x -> to_u8 x = x.
Proof. intros H. unfold to_u8. apply Z.mod_small. exact H. Qed.

(** The four shifted bytes do not overlap, so or-ing them adds them. *)
Lemma lor4_sum (a b c d : Z) :
  is_byte a -> is_byte b -> is_byte c -> is_byte d ->
  Z.lor (Z.lor (Z.lor (Z.shiftl a 24) (Z.shiftl b 16)) (Z.shiftl c 8))
        (Z.shiftl d 0)
  = a * 16777216 + b * 65536 + c * 256 + d.
Proof.
  unfold is_byte. intros Ha Hb Hc Hd.
  rewrite !Z.shiftl_mul_pow2 by lia.
  change (2 ^ 24) with 16777216. change (2 ^ 16) with 65536.
  change (2 ^ 8) with 256. change (2 ^ 0) with 1. rewrite Z.mul_1_r.
  rewrite (lor_hi_lo 24 (a * 16777216) (b * 65536));
    [ | lia | apply Z_mod_mult | change (2 ^ 24) with 16777216; lia ].
  rewrite (lor_hi_lo 16 (a * 16777216 + b * 65536) (c * 256));
    [ | lia | | change (2 ^ 16) with 65536; lia ].
  2:{ replace (a * 16777216 + b * 65536) with ((a * 256 + b) * 2 ^ 16) by lia.
      apply Z_mod_mult. }
  rewrite (lor_hi_lo 8 (a * 16777216 + b * 65536 + c * 256) d);
    [ | lia | | change (2 ^ 8) with 256; lia ].
  2:{ replace (a * 16777216 + b * 65536 + c * 256)
        with ((a * 65536 + b * 256 + c) * 2 ^ 8) by lia.
      apply Z_mod_mult. }
  reflexivity.
Qed.

Lemma pack_yuy2_sum (a b c d : Z) :
  is_byte a -> is_byte b -> is_byte c -> is_byte d ->
  pack_yuy2 a b c d = a * 16777216 + b * 65536 + c * 256 + d.
Proof.
  intros Ha Hb Hc Hd. unfold pack_yuy2.
  rewrite !to_char_byte by assumption.
  rewrite lor4_sum by assumption.
  unfold to_u32. apply Z.mod_small.
  unfold is_byte in *. change (2 ^ 32) with 4294967296. lia.
Qed.

Lemma bytes_of_sum (a b c d : Z) :
  is_byte a -> is_byte b -> is_byte c -> is_byte d ->
  let w := a * 16777216 + b * 65536 + c * 256 + d in
  byte_of w 3 = a /\ byte_of w 2 = b /\ byte_of w 1 = c /\ byte_of w 0 = d.
Proof.
  intros Ha Hb Hc Hd w. subst w. unfold is_byte in *.
  rewrite !byte_of_div by lia.
  change (2 ^ (8 * 3)) with 16777216. change (2 ^ (8 * 2)) with 65536.
  change (2 ^ (8 * 1)) with 256. change (2 ^ (8 * 0)) with 1.
  repeat split; Z.to_euclidean_division_equations; lia.
Qed.

(** ** The tables after initialisation *)

Lemma clamp_range (x y z : Z) : x <= y -> x <= clamp x y z <= y.
Proof.
  intros Hxy. unfold clamp.
  destruct (Z.ltb_spec z x); [lia|].
  destruct (Z.gtb_spec z y); lia.
Qed.

Lemma Y_entry_range (c : chan_tables) (i : Z) : 16 <= Y_entry c i <= 235.
Proof.
  unfold Y_entry. cbv zeta.
  set (z := sum3_shift _ _ _).
  pose proof (clamp_range 16 235 z ltac:(lia)) as H.
  rewrite to_u8_byte by (unfold is_byte; lia). exact H.
Qed.

Lemma U_entry_range (c : chan_tables) (i : Z) : 16 <= U_entry c i <= 240.
Proof.
  unfold U_entry. cbv zeta.
  set (z := sum3_shift _ _ _).
  pose proof (clamp_range 16 240 z ltac:(lia)) as H.
  rewrite to_u8_byte by (unfold is_byte; lia). exact H.
Qed.

Lemma V_entry_range (c : chan_tables) (i : Z) : 16 <= V_entry c i <= 240.
Proof.
  unfold V_entry. cbv zeta.
  set (z := sum3_shift _ _ _).
  pose proof (clamp_range 16 240 z ltac:(lia)) as H.
  rewrite to_u8_byte by (unfold is_byte; lia). exact H.
Qed.

(** Invariant of the second loop after [n] iterations: the three arrays
    keep their length and hold their final value below index [n]. *)
Lemma init_rgb16_loop (c : chan_tables) (n : nat) :
  (n <= rgb16_len)%nat ->
  let t := fold_left (init_rgb16_step c) (seq 0 n) rgb16_zero in
  (length (RGB16toY t) = rgb16_len /\ length (RGB16toU t) = rgb16_len
   /\ length (RGB16toV t) = rgb16_len)
  /\ forall k : nat, (k < n)%nat ->
       RGB16toY t !! k = Some (Y_entry c (Z.of_nat k))
       /\ RGB16toU t !! k = Some (U_entry c (Z.of_nat k))
       /\ RGB16toV t !! k = Some (V_entry c (Z.of_nat k)).
Proof.
  induction n as [|n IH]; intros Hn t.
  - subst t. cbn [seq fold_left]. unfold rgb16_zero. cbn [RGB16toY RGB16toU RGB16toV].
    rewrite length_replicate. split; [auto | intros k Hk; lia].
  - subst t. rewrite seq_S, fold_left_app. cbn [fold_left Nat.add].
    destruct IH as [(LY & LU & LV) IH]; [lia|].
    set (t := fold_left (init_rgb16_step c) (seq 0 n) rgb16_zero) in *.
    unfold init_rgb16_step. cbn [RGB16toY RGB16toU RGB16toV].
    rewrite !length_insert. split; [auto|].
    intros k Hk. destruct (decide (k = n)) as [->|Hne].
    + rewrite !list_lookup_insert_eq by lia. auto.
    + rewrite !list_lookup_insert_ne by lia. apply IH. lia.
Qed.

Lemma init_tables_rd (i : Z) :
  is_u16 i ->
  rd (RGB16toY initRGB2YUVTables) i = Y_entry init_chan i
  /\ rd (RGB16toU initRGB2YUVTables) i = U_entry init_chan i
  /\ rd (RGB16toV initRGB2YUVTables) i = V_entry init_chan i.
Proof.
  intros Hi. unfold is_u16 in Hi.
  destruct (init_rgb16_loop init_chan rgb16_len (Nat.le_refl _)) as [_ H].
  destruct (H (Z.to_nat i)) as (HY & HU & HV).
  { unfold rgb16_len. lia. }
  unfold rd, initRGB2YUVTables. rewrite HY, HU, HV. cbn [default].
  rewrite Z2Nat.id by lia. auto.
Qed.

Lemma init_tables_bytes (i : Z) :
  is_u16 i ->
  is_byte (rd (RGB16toY initRGB2YUVTables) i)
  /\ is_byte (rd (RGB16toU initRGB2YUVTables) i)
  /\ is_byte (rd (RGB16toV initRGB2YUVTables) i).
Proof.
  intros Hi. destruct (init_tables_rd i Hi) as (-> & -> & ->).
  pose proof (Y_entry_range init_chan i).
  pose proof (U_entry_range init_chan i).
  pose proof (V_entry_range init_chan i).
  unfold is_byte. lia.
Qed.

#[global] Opaque initRGB2YUVTables.

Lemma init_entries_at_zero :
  rd (RGB16toY initRGB2YUVTables) 0 = 16
  /\ rd (RGB16toU initRGB2YUVTables) 0 = 128
  /\ rd (RGB16toV initRGB2YUVTables) 0 = 128.
Proof.
  destruct (init_tables_rd 0) as (-> & -> & ->); [unfold is_u16; lia|].
  repeat split; vm_compute; reflexivity.
Qed.

(** ** The conversion kernel *)

Lemma zero_pair_constant (t : rgb16_tables) :
  rgbrgb16toyuy2 t 0 0 = 0x00800080.
Proof. reflexivity. Qed.

Lemma mean_rgb565_u16 (rgb1 rgb2 : Z) : is_u16 (mean_rgb565 rgb1 rgb2).
Proof.
  unfold is_u16, mean_rgb565, to_u16. change (2 ^ 16) with 65536.
  apply Z.mod_pos_bound. lia.
Qed.

Lemma chroma_pixel_u16 (rgb1 rgb2 : Z) :
  is_u16 rgb1 -> is_u16 (chroma_pixel rgb1 rgb2).
Proof.
  intros H. unfold chroma_pixel.
  destruct (rgb1 =? rgb2); [exact H | apply mean_rgb565_u16].
Qed.

Lemma yuy2_from_tables_pack (t : rgb16_tables) (rgb1 rgb2 : Z) :
  yuy2_from_tables t rgb1 rgb2
  = pack_yuy2 (rd (RGB16toY t) rgb1) (rd (RGB16toU t) (chroma_pixel rgb1 rgb2))
              (rd (RGB16toY t) rgb2) (rd (RGB16toV t) (chroma_pixel rgb1 rgb2)).
Proof.
  unfold yuy2_from_tables, chroma_pixel.
  destruct (Z.eqb_spec rgb1 rgb2) as [->|Hne]; reflexivity.
Qed.

Lemma nonzero_pair_uses_tables (t : rgb16_tables) (rgb1 rgb2 : Z) :
  is_u16 rgb1 -> is_u16 rgb2 -> rgb1 <> 0 \/ rgb2 <> 0 ->
  rgbrgb16toyuy2 t rgb1 rgb2 = yuy2_from_tables t rgb1 rgb2.
Proof.
  intros H1 H2 Hnz. unfold rgbrgb16toyuy2.
  destruct (Z.eqb_spec (Z.lor rgb1 rgb2) 0) as [Hz|]; [|reflexivity].
  apply Z.lor_eq_0_iff in Hz. lia.
Qed.

(** On initialised tables the table path packs four in-range bytes: the
    casts change nothing and each byte can be read back. *)
Lemma table_path_layout (rgb1 rgb2 : Z) :
  is_u16 rgb1 -> is_u16 rgb2 ->
  let w := yuy2_from_tables initRGB2YUVTables rgb1 rgb2 in
  yuy2_layout initRGB2YUVTables rgb1 rgb2 w
  /\ w = pack_nocast (rd (RGB16toY initRGB2YUVTables) rgb1)
                     (rd (RGB16toU initRGB2YUVTables) (chroma_pixel rgb1 rgb2))
                     (rd (RGB16toY initRGB2YUVTables) rgb2)
                     (rd (RGB16toV initRGB2YUVTables) (chroma_pixel rgb1 rgb2)).
Proof.
  intros H1 H2 w. subst w.
  pose proof (chroma_pixel_u16 rgb1 rgb2 H1) as Hc.
  destruct (init_tables_bytes rgb1 H1) as (BY1 & _ & _).
  destruct (init_tables_bytes rgb2 H2) as (BY2 & _ & _).
  destruct (init_tables_bytes _ Hc) as (_ & BU & BV).
  rewrite yuy2_from_tables_pack.
  split.
  - rewrite pack_yuy2_sum by assumption.
    unfold yuy2_layout. apply bytes_of_sum; assumption.
  - unfold pack_yuy2, pack_nocast.
    rewrite (to_char_byte _ BY1), (to_char_byte _ BY2),
      (to_char_byte _ BU), (to_char_byte _ BV).
    reflexivity.
Qed.

(** C1 (as stated, refuted): on the initialised tables the pair (0, 0)
    yields a word whose most significant byte is 0, while the luma table
    entry of pixel 0 is 16; the layout [[Y_left, Cb, Y_right, Cr]] of table
    values does not hold for every pair. *)
Lemma layout_fails_for_zero_pair :
  is_u16 0
  /\ byte_of (rgbrgb16toyuy2 initRGB2YUVTables 0 0) 3 = 0
  /\ rd (RGB16toY initRGB2YUVTables) 0 = 16
  /\ ~ yuy2_layout initRGB2YUVTables 0 0 (rgbrgb16toyuy2 initRGB2YUVTables 0 0).
Proof.
  destruct init_entries_at_zero as (HY & _ & _).
  rewrite zero_pair_constant.
  split; [unfold is_u16; lia|].
  split; [reflexivity|].
  split; [exact HY|].
  unfold yuy2_layout. rewrite HY. intros (Hb & _).
  vm_compute in Hb. discriminate Hb.
Qed.

(** C1 (amended): for every pair of 16-bit inputs that are not both zero,
    after table initialisation, [rgbrgb16toyuy2] returns the word whose
    bytes, most significant first, are [[Y_left, Cb, Y_right, Cr]] (the
    luma table entries of the two pixels and the chroma table entries of
    the chroma pixel), and the word equals the one packed without the
    8-bit casts. *)
Theorem packed_layout_nonzero_pair (rgb1 rgb2 : Z) :
  is_u16 rgb1 -> is_u16 rgb2 -> rgb1 <> 0 \/ rgb2 <> 0 ->
  yuy2_layout initRGB2YUVTables rgb1 rgb2
              (rgbrgb16toyuy2 initRGB2YUVTables rgb1 rgb2)
  /\ rgbrgb16toyuy2 initRGB2YUVTables rgb1 rgb2
     = pack_nocast (rd (RGB16toY initRGB2YUVTables) rgb1)
                   (rd (RGB16toU initRGB2YUVTables) (chroma_pixel rgb1 rgb2))
                   (rd (RGB16toY initRGB2YUVTables) rgb2)
                   (rd (RGB16toV initRGB2YUVTables) (chroma_pixel rgb1 rgb2)).
Proof.
  intros H1 H2 Hnz.
  rewrite nonzero_pair_uses_tables by assumption.
  apply table_path_layout; assumption.
Qed.

Lemma packed_layout_nonzero_pair_witness :
  yuy2_layout initRGB2YUVTables 0xf800 0x001f
              (rgbrgb16toyuy2 initRGB2YUVTables 0xf800 0x001f)
  /\ rgbrgb16toyuy2 initRGB2YUVTables 0xf800 0x001f
     = pack_nocast (rd (RGB16toY initRGB2YUVTables) 0xf800)
                   (rd (RGB16toU initRGB2YUVTables) (chroma_pixel 0xf800 0x001f))
                   (rd (RGB16toY initRGB2YUVTables) 0x001f)
                   (rd (RGB16toV initRGB2YUVTables) (chroma_pixel 0xf800 0x001f)).
Proof.
  refine (packed_layout_nonzero_pair 0xf800 0x001f _ _ _).
  - unfold is_u16. lia.
  - unfold is_u16. lia.
  - left. lia.
Defined.

(** C2 (the code departs from the claim): for the distinct pixels 0x07e0
    and 0x07e1, both of green field 63 and red field 0, the mean pixel
    computed by [rgbrgb16toyuy2] is 0x0800: green field 0 and red field 1
    (the blue field, 0, is the mean of 0 and 1 rounded down). The green
    sum has carried into the red field, and the green field is not the
    mean 63. The correction mask 0x0841 selects bit 6, the second
    bit of the green field; with 0x0821 (bit 5, its lowest bit) the same
    expression gives 0x07e0. *)
Theorem mean_rgb565_green_carry :
  (is_u16 0x07e0 /\ is_u16 0x07e1 /\ 0x07e0 <> 0x07e1)
  /\ (green6 0x07e0 = 63 /\ green6 0x07e1 = 63)
  /\ (red5 0x07e0 = 0 /\ red5 0x07e1 = 0)
  /\ (blue5 0x07e0 = 0 /\ blue5 0x07e1 = 1)
  /\ mean_rgb565 0x07e0 0x07e1 = 0x0800
  /\ green6 (mean_rgb565 0x07e0 0x07e1) = 0
  /\ red5 (mean_rgb565 0x07e0 0x07e1) = 1
  /\ blue5 (mean_rgb565 0x07e0 0x07e1) = 0
  /\ to_u16 ((Z.land (Z.shiftr 0x07e0 1) (Z.lnot 0x8410)
              + Z.land (Z.shiftr 0x07e1 1) (Z.lnot 0x8410))
             + Z.land (Z.land 0x07e0 0x07e1) 0x0821) = 0x07e0.
Proof.
  unfold is_u16. repeat split; try lia; try reflexivity.
Qed.

(** C3: the conversion of the all-zero pair is the constant 0x00800080,
    whatever the tables hold: no table is read on this path. *)
Theorem black_pair_constant (t : rgb16_tables) :
  rgbrgb16toyuy2 t 0 0 = 0x00800080.
Proof. apply zero_pair_constant. Qed.

(** C4: after [initRGB2YUVTables], for every index [i] in [0, 65535], the
    entry [RGB16toY[i]] lies in [16, 235] and the entries [RGB16toU[i]] and
    [RGB16toV[i]] lie in [16, 240]. *)
Theorem tables_studio_range (i : Z) :
  is_u16 i ->
  16 <= rd (RGB16toY initRGB2YUVTables) i <= 235
  /\ 16 <= rd (RGB16toU initRGB2YUVTables) i <= 240
  /\ 16 <= rd (RGB16toV initRGB2YUVTables) i <= 240.
Proof.
  intros Hi. destruct (init_tables_rd i Hi) as (-> & -> & ->).
  split; [apply Y_entry_range|].
  split; [apply U_entry_range | apply V_entry_range].
Qed.

Lemma tables_studio_range_witness :
  16 <= rd (RGB16toY initRGB2YUVTables) 65535 <= 235
  /\ 16 <= rd (RGB16toU initRGB2YUVTables) 65535 <= 240
  /\ 16 <= rd (RGB16toV initRGB2YUVTables) 65535 <= 240.
Proof.
  refine (tables_studio_range 65535 _). unfold is_u16. lia.
Defined.

(** C5: for every 16-bit value [v], the word for the pair (v, v) has equal
    first and third bytes, and its second and fourth bytes are the chroma
    table entries of [v] itself. *)
Theorem flat_pair_bytes (v : Z) :
  is_u16 v ->
  byte_of (rgbrgb16toyuy2 initRGB2YUVTables v v) 3
  = byte_of (rgbrgb16toyuy2 initRGB2YUVTables v v) 1
  /\ byte_of (rgbrgb16toyuy2 initRGB2YUVTables v v) 2
     = rd (RGB16toU initRGB2YUVTables) v
  /\ byte_of (rgbrgb16toyuy2 initRGB2YUVTables v v) 0
     = rd (RGB16toV initRGB2YUVTables) v.
Proof.
  intros Hv. destruct (Z.eq_dec v 0) as [->|Hnz].
  - destruct init_entries_at_zero as (_ & -> & ->).
    rewrite zero_pair_constant. repeat split.
  - rewrite nonzero_pair_uses_tables by (auto; lia).
    destruct (table_path_layout v v Hv Hv) as [(H3 & H2 & H1 & H0) _].
    unfold chroma_pixel in H2, H0. rewrite Z.eqb_refl in H2, H0.
    rewrite H3, H2, H1, H0. repeat split.
Qed.

Lemma flat_pair_bytes_witness :
  byte_of (rgbrgb16toyuy2 initRGB2YUVTables 0x1234 0x1234) 3
  = byte_of (rgbrgb16toyuy2 initRGB2YUVTables 0x1234 0x1234) 1
  /\ byte_of (rgbrgb16toyuy2 initRGB2YUVTables 0x1234 0x1234) 2
     = rd (RGB16toU initRGB2YUVTables) 0x1234
  /\ byte_of (rgbrgb16toyuy2 initRGB2YUVTables 0x1234 0x1234) 0
     = rd (RGB16toV initRGB2YUVTables) 0x1234.
Proof.
  refine (flat_pair_bytes 0x1234 _). unfold is_u16. lia.
Defined.

(** The word returned for a pair that is not (0, 0) holds four bytes of
    the studio range. *)
Lemma nonzero_pair_bytes_in_range (rgb1 rgb2 : Z) :
  is_u16 rgb1 -> is_u16 rgb2 -> rgb1 <> 0 \/ rgb2 <> 0 ->
  16 <= byte_of (rgbrgb16toyuy2 initRGB2YUVTables rgb1 rgb2) 3 <= 235
  /\ 16 <= byte_of (rgbrgb16toyuy2 initRGB2YUVTables rgb1 rgb2) 2 <= 240
  /\ 16 <= byte_of (rgbrgb16toyuy2 initRGB2YUVTables rgb1 rgb2) 1 <= 235
  /\ 16 <= byte_of (rgbrgb16toyuy2 initRGB2YUVTables rgb1 rgb2) 0 <= 240.
Proof.
  intros H1 H2 Hnz.
  pose proof (chroma_pixel_u16 rgb1 rgb2 H1) as Hc.
  rewrite nonzero_pair_uses_tables by assumption.
  destruct (table_path_layout rgb1 rgb2 H1 H2) as [(B3 & B2 & B1 & B0) _].
  rewrite B3, B2, B1, B0.
  destruct (init_tables_rd rgb1 H1) as (-> & _ & _).
  destruct (init_tables_rd rgb2 H2) as (-> & _ & _).
  destruct (init_tables_rd _ Hc) as (_ & -> & ->).
  split; [apply Y_entry_range|]. split; [apply U_entry_range|].
  split; [apply Y_entry_range | apply V_entry_range].
Qed.

(** C10: after initialisation the two luma bytes of the word returned for
    the pair (0, 0) are 0, below the floor 16 that the luma entry of pixel
    0 (which is exactly 16) and every other luma entry respect; the table
    path for two black pixels would build 0x10801080, a word different
    from the one returned. The pair (0, 0) is the one input whose output
    leaves the studio range: for every other pair of 16-bit pixels the
    luma bytes of the word returned lie in [16, 235] and its chroma bytes
    in [16, 240]. *)
Theorem black_pair_below_studio_range :
  byte_of (rgbrgb16toyuy2 initRGB2YUVTables 0 0) 3 = 0
  /\ byte_of (rgbrgb16toyuy2 initRGB2YUVTables 0 0) 1 = 0
  /\ rd (RGB16toY initRGB2YUVTables) 0 = 16
  /\ (forall i, is_u16 i -> 16 <= rd (RGB16toY initRGB2YUVTables) i)
  /\ yuy2_from_tables initRGB2YUVTables 0 0 = 0x10801080
  /\ rgbrgb16toyuy2 initRGB2YUVTables 0 0
     <> yuy2_from_tables initRGB2YUVTables 0 0
  /\ (forall rgb1 rgb2 : Z,
        is_u16 rgb1 -> is_u16 rgb2 -> rgb1 <> 0 \/ rgb2 <> 0 ->
        16 <= byte_of (rgbrgb16toyuy2 initRGB2YUVTables rgb1 rgb2) 3 <= 235
        /\ 16 <= byte_of (rgbrgb16toyuy2 initRGB2YUVTables rgb1 rgb2) 2 <= 240
        /\ 16 <= byte_of (rgbrgb16toyuy2 initRGB2YUVTables rgb1 rgb2) 1 <= 235
        /\ 16 <= byte_of (rgbrgb16toyuy2 initRGB2YUVTables rgb1 rgb2) 0
           <= 240).
Proof.
  destruct init_entries_at_zero as (HY & HU & HV).
  assert (Hpath : yuy2_from_tables initRGB2YUVTables 0 0 = 0x10801080).
  { rewrite yuy2_from_tables_pack.
    change (chroma_pixel 0 0) with 0. rewrite HY, HU, HV. reflexivity. }
  rewrite Hpath, zero_pair_constant.
  split; [reflexivity|]. split; [reflexivity|]. split; [exact HY|].
  split.
  { intros i Hi. destruct (init_tables_rd i Hi) as (-> & _ & _).
    apply Y_entry_range. }
  split; [reflexivity|]. split; [discriminate|].
  exact nonzero_pair_bytes_in_range.
Qed.

(** ** The refresh loop: runs on two output buffers *)

Lemma same_writes_start (b1 b2 : list Z) :
  length b1 = length b2 -> same_writes b1 b2 b1 b2.
Proof. intros H. repeat split; [exact H | intros k; right; auto]. Qed.

Section TwoRuns.

Variables (t : rgb16_tables) (shadow : list Z).
(** The contents the two output buffers started with. *)
Variables (b1 b2 : list Z).

Lemma store32_sim (o1 o2 o1' : list Z) (off v : Z) :
  same_writes b1 b2 o1 o2 ->
  store32 o1 off v = Some o1' ->
  exists o2', store32 o2 off v = Some o2' /\ same_writes b1 b2 o1' o2'.
Proof.
  intros (L1 & L2 & L12 & Hk) Hst. unfold store32 in *.
  assert (Hlen : length o1 = length o2) by congruence. rewrite <- Hlen.
  destruct ((0 <=? off) && (off mod 4 =? 0)
            && (off / 4 <? Z.of_nat (length o1))) eqn:E; [|discriminate].
  injection Hst as <-. eexists. split; [reflexivity|].
  apply andb_prop in E as [E Hlt]. apply andb_prop in E as [Hnn _].
  apply Z.leb_le in Hnn. apply Z.ltb_lt in Hlt.
  assert (0 <= off / 4) by (apply Z.div_pos; lia).
  unfold same_writes. rewrite !length_insert. repeat split; [assumption..|].
  intros k. destruct (decide (k = Z.to_nat (off / 4))) as [->|Hne].
  - left. rewrite !list_lookup_insert_eq by lia. reflexivity.
  - rewrite !list_lookup_insert_ne by congruence. apply Hk.
Qed.

Lemma pair_loop_sim (i : nat) :
  forall (src dst : Z) (o1 o2 : list Z) (src' dst' : Z) (o1' : list Z),
  same_writes b1 b2 o1 o2 ->
  pair_loop t shadow i src dst o1 = Some (src', dst', o1') ->
  exists o2', pair_loop t shadow i src dst o2 = Some (src', dst', o2')
              /\ same_writes b1 b2 o1' o2'.
Proof.
  induction i as [|i IH]; intros src dst o1 o2 src' dst' o1' Hsw Hrun.
  - cbn in Hrun. injection Hrun as <- <- <-. exists o2. split; [reflexivity | exact Hsw].
  - cbn [pair_loop] in *.
    destruct (load16 shadow src) as [rgb0|]; [|discriminate].
    destruct (load16 shadow (src + 2)) as [rgb1|]; [|discriminate].
    cbn [mbind option_bind] in *.
    destruct (store32 o1 dst (rgbrgb16toyuy2 t rgb0 rgb1)) as [o1m|] eqn:Est;
      [|discriminate].
    destruct (store32_sim o1 o2 o1m _ _ Hsw Est) as (o2m & -> & Hsw').
    cbn [mbind option_bind] in *.
    eapply IH; eassumption.
Qed.

Lemma row_loop_sim (width mod32 : Z) (h : nat) :
  forall (src dst : Z) (o1 o2 o1' : list Z),
  same_writes b1 b2 o1 o2 ->
  row_loop t shadow h width mod32 src dst o1 = Some o1' ->
  exists o2', row_loop t shadow h width mod32 src dst o2 = Some o2'
              /\ same_writes b1 b2 o1' o2'.
Proof.
  induction h as [|h IH]; intros src dst o1 o2 o1' Hsw Hrun.
  - cbn in Hrun. injection Hrun as <-. exists o2. split; [reflexivity | exact Hsw].
  - cbn [row_loop] in *.
    destruct (count (Z.quot width 2)) as [i|]; [|discriminate].
    cbn [mbind option_bind] in *.
    destruct (pair_loop t shadow i src dst o1) as [[[s1 d1] o1m]|] eqn:Ep;
      [|discriminate].
    destruct (pair_loop_sim i src dst o1 o2 s1 d1 o1m Hsw Ep) as (o2m & -> & Hsw').
    cbn [mbind option_bind] in *.
    eapply IH; eassumption.
Qed.

Lemma refresh_box_sim (pitch : Z) (pbox : BoxRec) (o1 o2 o1' : list Z) :
  same_writes b1 b2 o1 o2 ->
  refresh_box t shadow pitch pbox o1 = Some o1' ->
  exists o2', refresh_box t shadow pitch pbox o2 = Some o2'
              /\ same_writes b1 b2 o1' o2'.
Proof.
  intros Hsw Hrun. unfold refresh_box in *.
  destruct (count (y2 pbox - y1 pbox)) as [h|]; [|discriminate].
  cbn [mbind option_bind] in *.
  eapply row_loop_sim; eassumption.
Qed.

Lemma refresh_boxes_sim (pitch : Z) (boxes : list BoxRec) :
  forall (o1 o2 o1' : list Z),
  same_writes b1 b2 o1 o2 ->
  refresh_boxes t shadow pitch boxes o1 = Some o1' ->
  exists o2', refresh_boxes t shadow pitch boxes o2 = Some o2'
              /\ same_writes b1 b2 o1' o2'.
Proof.
  induction boxes as [|pbox rest IH]; intros o1 o2 o1' Hsw Hrun.
  - cbn in Hrun. injection Hrun as <-. exists o2. split; [reflexivity | exact Hsw].
  - cbn [refresh_boxes] in *.
    destruct (refresh_box t shadow pitch pbox o1) as [o1m|] eqn:Eb;
      [|discriminate].
    destruct (refresh_box_sim pitch pbox o1 o2 o1m Hsw Eb) as (o2m & -> & Hsw').
    cbn [mbind option_bind] in *.
    eapply IH; eassumption.
Qed.

End TwoRuns.

(** Running the same boxes again over the result changes nothing. *)
Lemma refresh_boxes_idem (t : rgb16_tables) (shadow : list Z) (pitch : Z)
    (boxes : list BoxRec) (out out' : list Z) :
  refresh_boxes t shadow pitch boxes out = Some out' ->
  refresh_boxes t shadow pitch boxes out' = Some out'.
Proof.
  intros Hrun.
  destruct (refresh_boxes_sim t shadow out out pitch boxes out out out'
              (same_writes_start out out eq_refl) Hrun)
    as (o & _ & Hlen & _).
  destruct (refresh_boxes_sim t shadow out out' pitch boxes out out' out'
              (same_writes_start out out' (eq_sym Hlen)) Hrun)
    as (out'' & Hrun2 & _ & _ & _ & Hk).
  rewrite Hrun2. f_equal. apply list_eq. intros k.
  destruct (Hk k) as [He | [_ He]]; congruence.
Qed.

(** ** The refresh loop: a contiguous run of macropixels *)

Lemma load16_even (shadow : list Z) (m : nat) (x : Z) :
  load16 shadow (4 * Z.of_nat m) = Some x ->
  rd shadow (Z.of_nat (2 * m)) = x.
Proof.
  unfold load16, rd. intros H.
  destruct ((0 <=? 4 * Z.of_nat m) && (4 * Z.of_nat m mod 2 =? 0));
    [|discriminate].
  replace (4 * Z.of_nat m / 2) with (Z.of_nat (2 * m)) in H
    by (Z.to_euclidean_division_equations; lia).
  rewrite H. reflexivity.
Qed.

Lemma load16_odd (shadow : list Z) (m : nat) (x : Z) :
  load16 shadow (4 * Z.of_nat m + 2) = Some x ->
  rd shadow (Z.of_nat (2 * m + 1)) = x.
Proof.
  unfold load16, rd. intros H.
  destruct ((0 <=? 4 * Z.of_nat m + 2) && ((4 * Z.of_nat m + 2) mod 2 =? 0));
    [|discriminate].
  replace ((4 * Z.of_nat m + 2) / 2) with (Z.of_nat (2 * m + 1)) in H
    by (Z.to_euclidean_division_equations; lia).
  rewrite H. reflexivity.
Qed.

Lemma store32_word (out out' : list Z) (m : nat) (v : Z) :
  store32 out (4 * Z.of_nat m) v = Some out' ->
  (m < length out)%nat /\ out' = <[m := v]> out.
Proof.
  unfold store32. intros H.
  replace (4 * Z.of_nat m / 4) with (Z.of_nat m) in H
    by (Z.to_euclidean_division_equations; lia).
  destruct ((0 <=? 4 * Z.of_nat m) && (4 * Z.of_nat m mod 4 =? 0)
            && (Z.of_nat m <? Z.of_nat (length out))) eqn:E; [|discriminate].
  apply andb_prop in E as [_ Hlt]. apply Z.ltb_lt in Hlt.
  rewrite Nat2Z.id in H. injection H as <-. split; [lia | reflexivity].
Qed.

(** What a run of [i] pairs has done when it returns, both pointers
    starting at word [m]. *)
Lemma pair_loop_words (t : rgb16_tables) (shadow : list Z) (i : nat) :
  forall (m : nat) (out : list Z) (src' dst' : Z) (out' : list Z),
  pair_loop t shadow i (4 * Z.of_nat m) (4 * Z.of_nat m) out
    = Some (src', dst', out') ->
  src' = 4 * Z.of_nat (m + i) /\ dst' = 4 * Z.of_nat (m + i)
  /\ length out' = length out
  /\ forall k : nat,
       out' !! k = if decide (m <= k < m + i)%nat
                   then Some (pair_word t shadow k) else out !! k.
Proof.
  induction i as [|i IH]; intros m out src' dst' out' Hrun.
  - cbn in Hrun. injection Hrun as <- <- <-.
    rewrite Nat.add_0_r. repeat split.
    intros k. destruct (decide _); [lia | reflexivity].
  - cbn [pair_loop] in Hrun.
    destruct (load16 shadow (4 * Z.of_nat m)) as [rgb0|] eqn:E0;
      [|discriminate].
    destruct (load16 shadow (4 * Z.of_nat m + 2)) as [rgb1|] eqn:E1;
      [|discriminate].
    cbn [mbind option_bind] in Hrun.
    destruct (store32 out (4 * Z.of_nat m) (rgbrgb16toyuy2 t rgb0 rgb1))
      as [out1|] eqn:Est; [|discriminate].
    cbn [mbind option_bind] in Hrun.
    apply load16_even in E0. apply load16_odd in E1.
    apply store32_word in Est as [Hm ->].
    replace (4 * Z.of_nat m + 4) with (4 * Z.of_nat (S m)) in Hrun by lia.
    apply IH in Hrun as (-> & -> & Hlen & Hk).
    rewrite length_insert in Hlen.
    split; [f_equal; lia|]. split; [f_equal; lia|]. split; [exact Hlen|].
    intros k. rewrite Hk.
    destruct (decide (S m <= k < S m + i)%nat) as [Hin|Hout].
    + destruct (decide _); [reflexivity | lia].
    + destruct (decide (k = m)) as [->|Hne].
      * rewrite list_lookup_insert_eq by exact Hm.
        destruct (decide _); [|lia].
        unfold pair_word. rewrite E0, E1. reflexivity.
      * rewrite list_lookup_insert_ne by congruence.
        destruct (decide _); [lia | reflexivity].
Qed.

(** A run that stays inside both buffers returns. *)
Lemma pair_loop_total (t : rgb16_tables) (shadow : list Z) (i : nat) :
  forall (m : nat) (out : list Z),
  (2 * (m + i) <= length shadow)%nat -> (m + i <= length out)%nat ->
  is_Some (pair_loop t shadow i (4 * Z.of_nat m) (4 * Z.of_nat m) out).
Proof.
  induction i as [|i IH]; intros m out Hsh Hout.
  - cbn. eauto.
  - cbn [pair_loop].
    destruct (lookup_lt_is_Some_2 shadow (2 * m)) as [rgb0 E0]; [lia|].
    destruct (lookup_lt_is_Some_2 shadow (2 * m + 1)) as [rgb1 E1]; [lia|].
    assert (L0 : load16 shadow (4 * Z.of_nat m) = Some rgb0).
    { unfold load16.
      replace (4 * Z.of_nat m / 2) with (Z.of_nat (2 * m))
        by (Z.to_euclidean_division_equations; lia).
      replace (4 * Z.of_nat m mod 2) with 0
        by (Z.to_euclidean_division_equations; lia).
      rewrite Nat2Z.id, E0.
      destruct (Z.leb_spec 0 (4 * Z.of_nat m)); [reflexivity | lia]. }
    assert (L1 : load16 shadow (4 * Z.of_nat m + 2) = Some rgb1).
    { unfold load16.
      replace ((4 * Z.of_nat m + 2) / 2) with (Z.of_nat (2 * m + 1))
        by (Z.to_euclidean_division_equations; lia).
      replace ((4 * Z.of_nat m + 2) mod 2) with 0
        by (Z.to_euclidean_division_equations; lia).
      rewrite Nat2Z.id, E1.
      destruct (Z.leb_spec 0 (4 * Z.of_nat m + 2)); [reflexivity | lia]. }
    rewrite L0, L1. cbn [mbind option_bind].
    assert (St : store32 out (4 * Z.of_nat m) (rgbrgb16toyuy2 t rgb0 rgb1)
                = Some (<[m := rgbrgb16toyuy2 t rgb0 rgb1]> out)).
    { unfold store32.
      replace (4 * Z.of_nat m / 4) with (Z.of_nat m)
        by (Z.to_euclidean_division_equations; lia).
      replace (4 * Z.of_nat m mod 4) with 0
        by (Z.to_euclidean_division_equations; lia).
      rewrite Nat2Z.id.
      destruct (Z.leb_spec 0 (4 * Z.of_nat m)); [|lia].
      destruct (Z.ltb_spec (Z.of_nat m) (Z.of_nat (length out))); [|lia].
      reflexivity. }
    rewrite St. cbn [mbind option_bind].
    replace (4 * Z.of_nat m + 4) with (4 * Z.of_nat (S m)) by lia.
    apply IH; [lia | rewrite length_insert; lia].
Qed.

Lemma pair_loop_app (t : rgb16_tables) (shadow : list Z) (a b : nat) :
  forall (src dst : Z) (out : list Z),
  pair_loop t shadow (a + b) src dst out
  = '(s, d, o) ← pair_loop t shadow a src dst out;
    pair_loop t shadow b s d o.
Proof.
  induction a as [|a IH]; intros src dst out.
  - reflexivity.
  - cbn [pair_loop Nat.add].
    destruct (load16 shadow src) as [rgb0|]; [|reflexivity].
    destruct (load16 shadow (src + 2)) as [rgb1|]; [|reflexivity].
    cbn [mbind option_bind].
    destruct (store32 out dst (rgbrgb16toyuy2 t rgb0 rgb1)) as [out1|];
      [|reflexivity].
    cbn [mbind option_bind]. apply IH.
Qed.

(** With no gap between rows ([mod32 = 0]) the rows form one run. *)
Lemma row_loop_contiguous (t : rgb16_tables) (shadow : list Z)
    (width : Z) (n : nat) (h : nat) :
  count (Z.quot width 2) = Some n ->
  forall (src dst : Z) (out : list Z),
  row_loop t shadow h width 0 src dst out
  = '(_, _, o) ← pair_loop t shadow (h * n) src dst out; Some o.
Proof.
  intros Hn. induction h as [|h IH]; intros src dst out.
  - reflexivity.
  - cbn [row_loop Nat.mul]. rewrite Hn. cbn [mbind option_bind].
    rewrite pair_loop_app.
    destruct (pair_loop t shadow n src dst out) as [[[s d] o]|];
      [|reflexivity].
    cbn [mbind option_bind].
    rewrite Z.mul_0_r, !Z.add_0_r. apply IH.
Qed.

(** A height that fits a [short] is stored into [box.y2] unchanged. *)
Lemma to_short_id (x : Z) : -32768 <= x <= 32767 -> to_short x = x.
Proof.
  intros H. unfold to_short. change (2 ^ 15) with 32768.
  change (2 ^ 16) with 65536. rewrite Z.mod_small by lia. lia.
Qed.

(** [CUBERefreshAll] on an unblanked screen of pitch 1280: one run of
    [320 * VDisplay] macropixels from the start of both buffers, for a
    height [VDisplay] that fits the [short] field [box.y2]. *)
Lemma refresh_all_run (t : rgb16_tables) (s : CUBERec) :
  ShadowPitch s = 1280 -> Blanked s = false ->
  -32768 <= VDisplay s <= 32767 ->
  CUBERefreshAll t s
  = h ← count (VDisplay s);
    '(_, _, o) ← pair_loop t (ShadowPtr s) (h * 320) 0 0 (mapped_mem s);
    Some (set_mapped_mem o s).
Proof.
  intros Hp Hb Hv. unfold CUBERefreshAll, CUBERefreshArea. rewrite Hb.
  rewrite (to_short_id _ Hv).
  cbn [refresh_boxes]. unfold refresh_box. cbn [x1 x2 y1 y2]. rewrite Hp.
  change (Z.land 0 (Z.lnot 1)) with 0.
  change (Z.land (640 + 1) (Z.lnot 1)) with 640.
  change (to_u32 (0 * 1280) + 0 * 2) with 0.
  change (Z.quot (to_int (to_u32 (1280 - 640 * 2))) 4) with 0.
  rewrite Z.sub_0_r.
  destruct (count (VDisplay s)) as [h|]; [|reflexivity].
  cbn [mbind option_bind].
  rewrite (row_loop_contiguous t (ShadowPtr s) 640 320 h eq_refl).
  destruct (pair_loop t (ShadowPtr s) (h * 320) 0 0 (mapped_mem s))
    as [[[a b] o]|]; reflexivity.
Qed.

(** The full-frame refresh: on an unblanked screen of pitch 1280 whose
    buffers hold the [VDisplay] rows, for a height that fits [box.y2]
    (at most 32767), [CUBERefreshAll] returns, and every
    macropixel of the frame is the conversion of its two shadow pixels;
    words after the frame are untouched. *)
Lemma refresh_all_frame (t : rgb16_tables) (s : CUBERec) :
  ShadowPitch s = 1280 -> Blanked s = false -> 0 <= VDisplay s <= 32767 ->
  (Z.to_nat (640 * VDisplay s) <= length (ShadowPtr s))%nat ->
  (Z.to_nat (320 * VDisplay s) <= length (mapped_mem s))%nat ->
  exists o,
    CUBERefreshAll t s = Some (set_mapped_mem o s)
    /\ length o = length (mapped_mem s)
    /\ forall k : nat,
         o !! k = if decide (k < Z.to_nat (320 * VDisplay s))%nat
                  then Some (pair_word t (ShadowPtr s) k)
                  else mapped_mem s !! k.
Proof.
  intros Hp Hb Hv Hsh Hout. rewrite refresh_all_run by (assumption || lia).
  unfold count. destruct (Z.ltb_spec (VDisplay s) 0) as [|_]; [lia|].
  cbn [mbind option_bind].
  destruct (pair_loop_total t (ShadowPtr s) (Z.to_nat (VDisplay s) * 320)
              0%nat (mapped_mem s)) as [[[a b] o] Hrun]; [lia | lia |].
  change (4 * Z.of_nat 0) with 0 in Hrun. rewrite Hrun.
  cbn [mbind option_bind]. exists o. split; [reflexivity|].
  apply (pair_loop_words t (ShadowPtr s) _ 0%nat) in Hrun
    as (_ & _ & Hlen & Hk).
  split; [exact Hlen|]. intros k. rewrite Hk.
  destruct (decide (0 <= k < 0 + Z.to_nat (VDisplay s) * 320)%nat);
    destruct (decide (k < Z.to_nat (320 * VDisplay s))%nat);
    first [reflexivity | lia].
Qed.

(** ** The refresh loop: longer buffers *)

(** A run that returns on a pair of buffers returns on any longer pair,
    and leaves the extra words as they were. *)

Section LongerBuffers.

Variables (t : rgb16_tables).
(** The shadow buffer [sh] is followed by [sh'], every output buffer by
    [out']. *)
Variables (sh sh' out' : list Z).

Lemma load16_extend (off x : Z) :
  load16 sh off = Some x -> load16 (sh ++ sh') off = Some x.
Proof.
  unfold load16. destruct ((0 <=? off) && (off mod 2 =? 0)); [|discriminate].
  apply lookup_app_l_Some.
Qed.

Lemma store32_extend (out o : list Z) (off v : Z) :
  store32 out off v = Some o -> store32 (out ++ out') off v = Some (o ++ out').
Proof.
  unfold store32. intros H.
  destruct ((0 <=? off) && (off mod 4 =? 0)
            && (off / 4 <? Z.of_nat (length out))) eqn:E; [|discriminate].
  injection H as <-.
  apply andb_prop in E as [E Hlt]. rewrite E.
  apply andb_prop in E as [Hnn _].
  apply Z.leb_le in Hnn. apply Z.ltb_lt in Hlt.
  assert (0 <= off / 4) by (apply Z.div_pos; lia).
  rewrite length_app.
  destruct (Z.ltb_spec (off / 4) (Z.of_nat (length out + length out')));
    [|lia].
  cbn [andb]. rewrite insert_app_l by lia. reflexivity.
Qed.

Lemma pair_loop_extend (i : nat) :
  forall (src dst : Z) (out : list Z) (s d : Z) (o : list Z),
  pair_loop t sh i src dst out = Some (s, d, o) ->
  pair_loop t (sh ++ sh') i src dst (out ++ out') = Some (s, d, o ++ out').
Proof.
  induction i as [|i IH]; intros src dst out s d o Hrun.
  - cbn in *. injection Hrun as <- <- <-. reflexivity.
  - cbn [pair_loop] in *.
    destruct (load16 sh src) as [rgb0|] eqn:E0; [|discriminate].
    destruct (load16 sh (src + 2)) as [rgb1|] eqn:E1; [|discriminate].
    rewrite (load16_extend _ _ E0), (load16_extend _ _ E1).
    cbn [mbind option_bind] in *.
    destruct (store32 out dst (rgbrgb16toyuy2 t rgb0 rgb1)) as [o1|] eqn:Est;
      [|discriminate].
    rewrite (store32_extend _ _ _ _ Est).
    cbn [mbind option_bind] in *. apply IH. exact Hrun.
Qed.

Lemma row_loop_extend (width mod32 : Z) (h : nat) :
  forall (src dst : Z) (out o : list Z),
  row_loop t sh h width mod32 src dst out = Some o ->
  row_loop t (sh ++ sh') h width mod32 src dst (out ++ out')
  = Some (o ++ out').
Proof.
  induction h as [|h IH]; intros src dst out o Hrun.
  - cbn in *. injection Hrun as <-. reflexivity.
  - cbn [row_loop] in *.
    destruct (count (Z.quot width 2)) as [i|]; [|discriminate].
    cbn [mbind option_bind] in *.
    destruct (pair_loop t sh i src dst out) as [[[s1 d1] o1]|] eqn:Ep;
      [|discriminate].
    rewrite (pair_loop_extend i _ _ _ _ _ _ Ep).
    cbn [mbind option_bind] in *. apply IH. exact Hrun.
Qed.

Lemma refresh_boxes_extend (pitch : Z) (boxes : list BoxRec) :
  forall (out o : list Z),
  refresh_boxes t sh pitch boxes out = Some o ->
  refresh_boxes t (sh ++ sh') pitch boxes (out ++ out') = Some (o ++ out').
Proof.
  induction boxes as [|pbox rest IH]; intros out o Hrun.
  - cbn in *. injection Hrun as <-. reflexivity.
  - cbn [refresh_boxes] in *. unfold refresh_box in *.
    destruct (count (y2 pbox - y1 pbox)) as [h|]; [|discriminate].
    cbn [mbind option_bind] in *.
    destruct (row_loop t sh h _ _ _ _ out) as [o1|] eqn:Er; [|discriminate].
    rewrite (row_loop_extend _ _ h _ _ _ _ Er).
    cbn [mbind option_bind] in *. apply IH. exact Hrun.
Qed.

End LongerBuffers.

Lemma scenario_rows_eval (t : rgb16_tables) :
  refresh_boxes t (replicate (Z.to_nat (640 * 12)) 0) 1280 [scenario_box]
                (replicate (Z.to_nat (320 * 12)) 0)
  = Some scenario_rows.
Proof. vm_compute. reflexivity. Qed.

Lemma black_rows_split (w a b : Z) (x : Z) :
  0 <= w -> 0 <= a -> 0 <= b ->
  replicate (Z.to_nat (w * (a + b))) x
  = replicate (Z.to_nat (w * a)) x ++ replicate (Z.to_nat (w * b)) x.
Proof.
  intros Hw Ha Hb. rewrite <- replicate_add. f_equal. nia.
Qed.

Lemma scenario_refresh_eval (t : rgb16_tables) :
  CUBERefreshArea t [scenario_box] (black_surface 480)
  = Some (set_mapped_mem scenario_output (black_surface 480)).
Proof.
  unfold CUBERefreshArea, set_mapped_mem, black_surface, scenario_output.
  cbn [Blanked ShadowPtr ShadowPitch mapped_mem VDisplay].
  change 480 with (12 + 468).
  rewrite !black_rows_split by lia.
  pose proof (scenario_rows_eval t) as E. revert E.
  generalize (replicate (Z.to_nat (640 * 12)) 0).
  generalize (replicate (Z.to_nat (320 * 12)) 0).
  generalize (replicate (Z.to_nat (640 * 468)) 0).
  generalize (replicate (Z.to_nat (320 * 468)) 0).
  generalize scenario_rows.
  intros rows outB shB outA shA E.
  rewrite (refresh_boxes_extend t shA shB outB 1280 [scenario_box] outA rows E).
  reflexivity.
Qed.

Lemma rd_replicate_zero (n : nat) (i : Z) : rd (replicate n 0) i = 0.
Proof.
  unfold rd. destruct (replicate n 0 !! Z.to_nat i) as [x|] eqn:E;
    [|reflexivity].
  apply lookup_replicate in E as [-> _]. reflexivity.
Qed.

Lemma pair_word_black (t : rgb16_tables) (n k : nat) :
  pair_word t (replicate n 0) k = 0x00800080.
Proof.
  unfold pair_word. rewrite !rd_replicate_zero. apply zero_pair_constant.
Qed.

Lemma refresh_all_black (t : rgb16_tables) (rows : Z) (o0 : list Z) :
  0 <= rows <= 32767 -> length o0 = Z.to_nat (320 * rows) ->
  CUBERefreshAll t (set_mapped_mem o0 (black_surface rows))
  = Some (black_frame rows).
Proof.
  intros Hr Hlen.
  destruct (refresh_all_frame t (set_mapped_mem o0 (black_surface rows)))
    as (o & -> & Hl & Hk); cbn [set_mapped_mem black_surface ShadowPitch
      Blanked VDisplay ShadowPtr mapped_mem]; try reflexivity; try lia.
  { rewrite length_replicate. lia. }
  unfold black_frame, set_mapped_mem, black_surface in *.
  cbn [ShadowPtr ShadowPitch Blanked VDisplay mapped_mem] in *.
  do 2 f_equal. apply list_eq. intros k. rewrite Hk.
  destruct (decide (k < Z.to_nat (320 * rows))%nat) as [Hlt|Hge].
  - rewrite pair_word_black. symmetry. apply lookup_replicate_2. exact Hlt.
  - rewrite lookup_ge_None_2 by lia.
    symmetry. apply lookup_ge_None_2. rewrite length_replicate. lia.
Qed.

(** ** The refresh scheduler and blanking *)

(** C6 (the code departs from the claim): on a 640 x 480 screen the box
    {x1 = 3, y1 = 10, x2 = 9, y2 = 12} makes [CUBERefreshArea] write output
    words 1 to 5 of rows 10 and 11, that is pixel columns 2 to 11: the
    loop starts at [left = 2] and runs for [width = 10] pixels, [width]
    being the rounded right edge [(x2 + 1) & ~1] and not the distance from
    [left]. The word of columns 10 and 11 of row 10 (index 3205), outside
    columns 2 to 9, is zero before the call and a converted macropixel
    after it. *)
Theorem alignment_scenario_covers_columns_2_to_11 (t : rgb16_tables) :
  CUBERefreshArea t [scenario_box] (black_surface 480)
  = Some (set_mapped_mem scenario_output (black_surface 480))
  /\ mapped_mem (black_surface 480) !! (10 * 320 + 5)%nat = Some 0
  /\ scenario_output !! (10 * 320 + 5)%nat = Some 0x00800080.
Proof.
  split; [apply scenario_refresh_eval|]. split.
  - unfold black_surface. cbn [mapped_mem].
    apply lookup_replicate_2. lia.
  - unfold scenario_output. rewrite lookup_app_l.
    + vm_compute. reflexivity.
    + vm_compute. lia.
Qed.

(** C7: when a call of [CUBERefreshArea] returns, a second call with the
    same boxes on the resulting state (same shadow content) returns that
    state again: the output surface is unchanged by the second call. *)
Theorem refresh_twice_same (t : rgb16_tables) (boxes : list BoxRec)
    (s s' : CUBERec) :
  CUBERefreshArea t boxes s = Some s' ->
  CUBERefreshArea t boxes s' = Some s'.
Proof.
  unfold CUBERefreshArea. intros Hrun.
  destruct (Blanked s) eqn:Hb.
  - injection Hrun as <-. rewrite Hb. reflexivity.
  - destruct (refresh_boxes t (ShadowPtr s) (ShadowPitch s) boxes
                (mapped_mem s)) as [out'|] eqn:Er; [|discriminate].
    cbn [mbind option_bind] in Hrun. injection Hrun as <-.
    cbn [set_mapped_mem Blanked ShadowPtr ShadowPitch mapped_mem].
    rewrite Hb. rewrite (refresh_boxes_idem _ _ _ _ _ _ Er).
    reflexivity.
Qed.

Lemma refresh_twice_same_witness :
  CUBERefreshArea initRGB2YUVTables [scenario_box] (black_surface 480)
  = Some (set_mapped_mem scenario_output (black_surface 480))
  /\ CUBERefreshArea initRGB2YUVTables [scenario_box]
       (set_mapped_mem scenario_output (black_surface 480))
     = Some (set_mapped_mem scenario_output (black_surface 480)).
Proof.
  exact (conj (scenario_refresh_eval initRGB2YUVTables)
              (refresh_twice_same initRGB2YUVTables [scenario_box]
                 (black_surface 480)
                 (set_mapped_mem scenario_output (black_surface 480))
                 (scenario_refresh_eval initRGB2YUVTables))).
Defined.

(** C8: with [Blanked] set, [CUBERefreshArea] returns the state it was
    given, whatever the boxes: neither the output surface nor any other
    field changes. *)
Theorem blanked_refresh_noop (t : rgb16_tables) (boxes : list BoxRec)
    (s : CUBERec) :
  Blanked s = true -> CUBERefreshArea t boxes s = Some s.
Proof. intros Hb. unfold CUBERefreshArea. rewrite Hb. reflexivity. Qed.

Lemma blanked_refresh_noop_witness :
  Blanked (set_Blanked true (black_frame 480)) = true
  /\ CUBERefreshArea initRGB2YUVTables [scenario_box]
       (set_Blanked true (black_frame 480))
     = Some (set_Blanked true (black_frame 480)).
Proof.
  exact (conj eq_refl
              (blanked_refresh_noop initRGB2YUVTables [scenario_box]
                 (set_Blanked true (black_frame 480)) eq_refl)).
Defined.

(** Entering the blanked state: [Blanked] is set and the output surface
    zero-filled; the shadow surface is kept. *)
Lemma blank_screen (t : rgb16_tables) (s : CUBERec) :
  CUBESaveScreen t false s = Some (memset_mapped (set_Blanked true s)).
Proof. reflexivity. Qed.

(** Leaving it: [Blanked] is cleared and the whole screen refreshed. *)
Lemma unblank_screen (t : rgb16_tables) (s : CUBERec) :
  CUBESaveScreen t true s = CUBERefreshAll t (set_Blanked false s).
Proof. reflexivity. Qed.

(** C9 (as stated, refuted): the 640 x 480 screen as [CUBEModeInit] leaves
    it (active, output zero-filled, shadow black) is blanked and then
    unblanked; both calls return, and the output surface ends up holding
    converted black macropixels and not the zeros it held before. *)
Lemma blank_roundtrip_fresh_screen :
  Blanked (black_surface 480) = false
  /\ CUBESaveScreen initRGB2YUVTables false (black_surface 480)
     = Some (set_Blanked true (black_surface 480))
  /\ CUBESaveScreen initRGB2YUVTables true (set_Blanked true (black_surface 480))
     = Some (black_frame 480)
  /\ mapped_mem (black_surface 480) !! 0%nat = Some 0
  /\ mapped_mem (black_frame 480) !! 0%nat = Some 0x00800080
  /\ mapped_mem (black_frame 480) <> mapped_mem (black_surface 480).
Proof.
  assert (H0 : mapped_mem (black_surface 480) !! 0%nat = Some 0).
  { unfold black_surface. cbn [mapped_mem]. apply lookup_replicate_2. lia. }
  assert (H1 : mapped_mem (black_frame 480) !! 0%nat = Some 0x00800080).
  { unfold black_frame, set_mapped_mem. cbn [mapped_mem].
    apply lookup_replicate_2. lia. }
  split; [reflexivity|]. split.
  { rewrite blank_screen. unfold memset_mapped, set_mapped_mem, set_Blanked,
      black_surface. cbn [mapped_mem ShadowPtr ShadowPitch Blanked VDisplay].
    rewrite length_replicate. reflexivity. }
  split.
  { rewrite unblank_screen.
    change (set_Blanked false (set_Blanked true (black_surface 480)))
      with (set_mapped_mem (replicate (Z.to_nat (320 * 480)) 0)
              (black_surface 480)).
    apply refresh_all_black; [lia | apply length_replicate]. }
  split; [exact H0|]. split; [exact H1|].
  intros Heq. rewrite Heq, H0 in H1. discriminate H1.
Qed.

(** C9 (amended): on a screen of pitch 1280 whose height [VDisplay] fits
    the [short] coordinate of the refresh box (0 to 32767), if before
    blanking the output surface is in step with the shadow surface (a
    full-area refresh returns the state unchanged) and holds zero in every
    word after the 640 x VDisplay frame, then blanking (which zero-fills
    the output surface and keeps the shadow surface) followed by
    unblanking returns the state held before blanking, output surface
    included. *)
Theorem blank_roundtrip_restores_synced (t : rgb16_tables) (s : CUBERec) :
  Blanked s = false ->
  ShadowPitch s = 1280 ->
  0 <= VDisplay s <= 32767 ->
  CUBERefreshAll t s = Some s ->
  (forall (k : nat) (v : Z),
     (Z.to_nat (320 * VDisplay s) <= k)%nat ->
     mapped_mem s !! k = Some v -> v = 0) ->
  exists s1,
    CUBESaveScreen t false s = Some s1
    /\ Blanked s1 = true
    /\ ShadowPtr s1 = ShadowPtr s
    /\ mapped_mem s1 = replicate (length (mapped_mem s)) 0
    /\ CUBESaveScreen t true s1 = Some s.
Proof.
  intros Hb Hp Hfit Hsync Hzero.
  exists (memset_mapped (set_Blanked true s)).
  split; [apply blank_screen|]. split; [reflexivity|].
  split; [reflexivity|]. split; [reflexivity|].
  rewrite unblank_screen.
  rewrite refresh_all_run in Hsync by (assumption || lia).
  destruct s as [sh p bl out V].
  cbn [ShadowPtr ShadowPitch Blanked mapped_mem VDisplay] in *.
  subst bl p.
  rewrite refresh_all_run
    by first [reflexivity
             | cbn [memset_mapped set_Blanked set_mapped_mem VDisplay]; lia].
  cbn [memset_mapped set_Blanked set_mapped_mem ShadowPtr ShadowPitch Blanked
       mapped_mem VDisplay] in *.
  destruct (count V) as [h|] eqn:Eh; [|discriminate].
  cbn [mbind option_bind] in *.
  destruct (pair_loop t sh (h * 320) 0 0 out) as [[[a b] o]|] eqn:Er;
    [|discriminate].
  cbn [mbind option_bind] in Hsync.
  unfold memset_mapped, set_Blanked, set_mapped_mem in *.
  cbn [ShadowPtr ShadowPitch Blanked mapped_mem VDisplay] in *.
  assert (o = out) by congruence. subst o.
  destruct (pair_loop_sim t sh out (replicate (length out) 0) (h * 320) 0 0
              out (replicate (length out) 0) a b out)
    as (z & Ez & _); [|exact Er|].
  { apply same_writes_start. rewrite length_replicate. reflexivity. }
  rewrite Ez. cbn [mbind option_bind]. do 2 f_equal.
  apply (pair_loop_words t sh _ 0%nat) in Er as (_ & _ & _ & Hk).
  apply (pair_loop_words t sh _ 0%nat) in Ez as (_ & _ & _ & Hkz).
  apply list_eq. intros k. rewrite Hkz.
  destruct (decide (0 <= k < 0 + h * 320)%nat) as [Hin|Hout].
  - rewrite Hk. destruct (decide _); [reflexivity | contradiction].
  - destruct (out !! k) as [v|] eqn:Ev.
    + assert (Hv : v = 0).
      { apply (Hzero k); [|exact Ev]. unfold count in Eh.
        destruct (V <? 0); [discriminate | injection Eh as <-; lia]. }
      subst v. apply lookup_replicate_2. apply lookup_lt_Some in Ev. exact Ev.
    + apply lookup_ge_None_2. rewrite length_replicate.
      apply lookup_ge_None_1 in Ev. exact Ev.
Qed.

Lemma blank_roundtrip_restores_synced_witness :
  exists s1,
    CUBESaveScreen initRGB2YUVTables false (black_frame 480) = Some s1
    /\ Blanked s1 = true
    /\ ShadowPtr s1 = ShadowPtr (black_frame 480)
    /\ mapped_mem s1 = replicate (length (mapped_mem (black_frame 480))) 0
    /\ CUBESaveScreen initRGB2YUVTables true s1 = Some (black_frame 480).
Proof.
  refine (blank_roundtrip_restores_synced initRGB2YUVTables (black_frame 480)
            eq_refl eq_refl _ _ _).
  - cbn [black_frame set_mapped_mem black_surface VDisplay]. lia.
  - apply refresh_all_black; [lia | apply length_replicate].
  - intros k v Hk Hv. apply lookup_replicate in Hv as [-> Hlt].
    cbn [black_frame set_mapped_mem black_surface VDisplay] in Hk. lia.
Defined.

(** ** Remarks on the model's assumptions *)

(** With a signed plain [char] the casts would sign-extend: the chroma
    byte 240 becomes -16 and, shifted, overwrites the luma byte above it.
    The layout results hold for the unsigned [char] of the target. *)
Remark signed_char_sign_extends :
  to_schar 240 = -16
  /\ to_u32 (Z.lor (Z.shiftl (to_schar 16) 24) (Z.shiftl (to_schar 240) 16))
     = 0xfff00000
  /\ to_u32 (Z.lor (Z.shiftl (to_char 16) 24) (Z.shiftl (to_char 240) 16))
     = 0x10f00000.
Proof. repeat split. Qed.

(** A height that does not fit the [short] field [box.y2] is not the
    height [CUBERefreshAll] refreshes: 40000 is stored as -25536, and the
    row loop, entered with a negative count, has no result in the model. *)
Lemma tall_screen_refresh (t : rgb16_tables) (s : CUBERec) :
  Blanked s = false -> VDisplay s = 40000 ->
  to_short (VDisplay s) = -25536 /\ CUBERefreshAll t s = None.
Proof.
  intros Hb Hv. unfold CUBERefreshAll, CUBERefreshArea. rewrite Hb, Hv.
  split; reflexivity.
Qed.

(** A box that ends on the last row of a 640 x 480 screen but starts at
    column 2: the loop runs 640 pixels on from column 2 of row 479, past
    the end of an output buffer of 480 rows. *)
Lemma last_row_run_overruns (t : rgb16_tables) (sh out : list Z) :
  length out = Z.to_nat (320 * 480) ->
  refresh_boxes t sh 1280 [ {| x1 := 2; y1 := 479; x2 := 640; y2 := 480 |} ]
                out = None.
Proof.
  intros Hlen.
  cbn [refresh_boxes]. unfold refresh_box. cbn [x1 x2 y1 y2].
  change (Z.land 2 (Z.lnot 1)) with 2.
  change (Z.land (640 + 1) (Z.lnot 1)) with 640.
  change (to_u32 (479 * 1280) + 2 * 2) with 613124.
  change (Z.quot (to_int (to_u32 (1280 - 640 * 2))) 4) with 0.
  change (count (480 - 479)) with (Some 1%nat).
  cbn [mbind option_bind row_loop].
  change (count (Z.quot 640 2)) with (Some (Z.to_nat 320)).
  cbn [mbind option_bind].
  replace 613124 with (4 * Z.of_nat (Z.to_nat 153281)) by lia.
  destruct (pair_loop t sh (Z.to_nat 320) _ _ out) as [[[a b] o]|] eqn:Er;
    [|reflexivity].
  exfalso.
  apply pair_loop_words in Er as (_ & _ & Hl & Hk).
  specialize (Hk (Z.to_nat 153600)).
  destruct (decide _) as [_|Hn]; [|lia].
  apply lookup_lt_Some in Hk. lia.
Qed.

(** On the screen [black_surface 480] the model has no result for it. *)
Lemma last_row_box_overruns (t : rgb16_tables) :
  CUBERefreshArea t [ {| x1 := 2; y1 := 479; x2 := 640; y2 := 480 |} ]
                  (black_surface 480) = None.
Proof.
  unfold CUBERefreshArea, black_surface.
  cbn [Blanked ShadowPtr ShadowPitch mapped_mem].
  rewrite last_row_run_overruns; [reflexivity | apply length_replicate].
Qed.

(** * Further properties *)

(** ** Every word a refresh writes is the macropixel of its position *)

Section WrittenWords.

Variables (t : rgb16_tables) (shadow base : list Z).

Lemma written_ok_start : written_ok t shadow base base.
Proof. split; [reflexivity | intros k; left; reflexivity]. Qed.

(** Source and destination pointers start equal and stay equal: the
    macropixel stored at a word is that of the two pixels at the same
    offset. *)
Lemma pair_loop_sound (i : nat) :
  forall (off : Z) (o : list Z) (s' d' : Z) (o' : list Z),
  written_ok t shadow base o ->
  pair_loop t shadow i off off o = Some (s', d', o') ->
  s' = d' /\ written_ok t shadow base o'.
Proof.
  induction i as [|i IH]; intros off o s' d' o' Hok Hrun.
  - cbn in Hrun. injection Hrun as <- <- <-. split; [reflexivity | exact Hok].
  - cbn [pair_loop] in Hrun.
    destruct (load16 shadow off) as [rgb0|] eqn:E0; [|discriminate].
    destruct (load16 shadow (off + 2)) as [rgb1|] eqn:E1; [|discriminate].
    cbn [mbind option_bind] in Hrun.
    destruct (store32 o off (rgbrgb16toyuy2 t rgb0 rgb1)) as [o1|] eqn:Est;
      [|discriminate].
    cbn [mbind option_bind] in Hrun.
    apply (IH _ _ _ _ _) in Hrun; [exact Hrun|]. clear IH Hrun.
    assert (Hoff : off = 4 * Z.of_nat (Z.to_nat (off / 4))).
    { unfold store32 in Est.
      destruct ((0 <=? off) && (off mod 4 =? 0)
                && (off / 4 <? Z.of_nat (length o))) eqn:E; [|discriminate].
      apply andb_prop in E as [E _]. apply andb_prop in E as [Hnn Hal].
      apply Z.leb_le in Hnn. apply Z.eqb_eq in Hal.
      rewrite Z2Nat.id by (apply Z.div_pos; lia).
      Z.to_euclidean_division_equations; lia. }
    set (m := Z.to_nat (off / 4)) in *. rewrite Hoff in E0, E1, Est.
    apply load16_even in E0. apply load16_odd in E1.
    apply store32_word in Est as [Hm ->].
    destruct Hok as [Hlen Hk]. split; [rewrite length_insert; exact Hlen|].
    intros k. destruct (decide (k = m)) as [->|Hne].
    + right. rewrite list_lookup_insert_eq by exact Hm.
      unfold pair_word. rewrite E0, E1. reflexivity.
    + rewrite list_lookup_insert_ne by congruence. apply Hk.
Qed.

Lemma row_loop_sound (width mod32 : Z) (h : nat) :
  forall (off : Z) (o o' : list Z),
  written_ok t shadow base o ->
  row_loop t shadow h width mod32 off off o = Some o' ->
  written_ok t shadow base o'.
Proof.
  induction h as [|h IH]; intros off o o' Hok Hrun.
  - cbn in Hrun. injection Hrun as <-. exact Hok.
  - cbn [row_loop] in Hrun.
    destruct (count (Z.quot width 2)) as [i|]; [|discriminate].
    cbn [mbind option_bind] in Hrun.
    destruct (pair_loop t shadow i off off o) as [[[s1 d1] o1]|] eqn:Ep;
      [|discriminate].
    cbn [mbind option_bind] in Hrun.
    destruct (pair_loop_sound i off o s1 d1 o1 Hok Ep) as [-> Hok1].
    eapply IH; eassumption.
Qed.

Lemma refresh_box_sound (pitch : Z) (pbox : BoxRec) (o o' : list Z) :
  written_ok t shadow base o ->
  refresh_box t shadow pitch pbox o = Some o' ->
  written_ok t shadow base o'.
Proof.
  intros Hok Hrun. unfold refresh_box in Hrun.
  destruct (count (y2 pbox - y1 pbox)) as [h|]; [|discriminate].
  cbn [mbind option_bind] in Hrun.
  eapply row_loop_sound; eassumption.
Qed.

Lemma refresh_boxes_sound (pitch : Z) (boxes : list BoxRec) :
  forall (o o' : list Z),
  written_ok t shadow base o ->
  refresh_boxes t shadow pitch boxes o = Some o' ->
  written_ok t shadow base o'.
Proof.
  induction boxes as [|pbox rest IH]; intros o o' Hok Hrun.
  - cbn in Hrun. injection Hrun as <-. exact Hok.
  - cbn [refresh_boxes] in Hrun.
    destruct (refresh_box t shadow pitch pbox o) as [o1|] eqn:Eb;
      [|discriminate].
    cbn [mbind option_bind] in Hrun.
    eapply IH; [|exact Hrun]. eapply refresh_box_sound; eassumption.
Qed.

End WrittenWords.

(** X1: when [CUBERefreshArea] returns, whatever the boxes, the shadow
    surface, pitch and flag are as before, the output surface has kept its
    length, and every output word is either the word held before the call
    or the macropixel of the two shadow pixels at the same position. *)
Theorem refresh_writes_only_converted_words (t : rgb16_tables)
    (boxes : list BoxRec) (s s' : CUBERec) :
  CUBERefreshArea t boxes s = Some s' ->
  ShadowPtr s' = ShadowPtr s /\ ShadowPitch s' = ShadowPitch s
  /\ Blanked s' = Blanked s /\ VDisplay s' = VDisplay s
  /\ length (mapped_mem s') = length (mapped_mem s)
  /\ forall k : nat,
       mapped_mem s' !! k = mapped_mem s !! k
       \/ mapped_mem s' !! k = Some (pair_word t (ShadowPtr s) k).
Proof.
  unfold CUBERefreshArea. intros Hrun.
  destruct (Blanked s) eqn:Hb.
  - injection Hrun as <-. rewrite Hb. repeat split. intros k. left. reflexivity.
  - destruct (refresh_boxes t (ShadowPtr s) (ShadowPitch s) boxes
                (mapped_mem s)) as [o|] eqn:Er; [|discriminate].
    cbn [mbind option_bind] in Hrun. injection Hrun as <-.
    cbn [set_mapped_mem ShadowPtr ShadowPitch Blanked VDisplay mapped_mem].
    destruct (refresh_boxes_sound t (ShadowPtr s) (mapped_mem s)
                (ShadowPitch s) boxes (mapped_mem s) o
                (written_ok_start _ _ _) Er) as [Hlen Hk].
    rewrite Hb. repeat split; assumption.
Qed.

Lemma refresh_writes_only_converted_words_witness :
  CUBERefreshArea initRGB2YUVTables [scenario_box] (black_surface 480)
  = Some (set_mapped_mem scenario_output (black_surface 480))
  /\ (ShadowPtr (set_mapped_mem scenario_output (black_surface 480))
      = ShadowPtr (black_surface 480)
      /\ ShadowPitch (set_mapped_mem scenario_output (black_surface 480))
         = ShadowPitch (black_surface 480)
      /\ Blanked (set_mapped_mem scenario_output (black_surface 480))
         = Blanked (black_surface 480)
      /\ VDisplay (set_mapped_mem scenario_output (black_surface 480))
         = VDisplay (black_surface 480)
      /\ length (mapped_mem (set_mapped_mem scenario_output (black_surface 480)))
         = length (mapped_mem (black_surface 480))
      /\ forall k : nat,
           mapped_mem (set_mapped_mem scenario_output (black_surface 480)) !! k
           = mapped_mem (black_surface 480) !! k
           \/ mapped_mem (set_mapped_mem scenario_output (black_surface 480)) !! k
              = Some (pair_word initRGB2YUVTables
                        (ShadowPtr (black_surface 480)) k)).
Proof.
  exact (conj (scenario_refresh_eval initRGB2YUVTables)
              (refresh_writes_only_converted_words initRGB2YUVTables
                 [scenario_box] (black_surface 480)
                 (set_mapped_mem scenario_output (black_surface 480))
                 (scenario_refresh_eval initRGB2YUVTables))).
Defined.

(** ** Batches of boxes *)

Lemma refresh_boxes_app (t : rgb16_tables) (shadow : list Z) (pitch : Z)
    (bs1 bs2 : list BoxRec) :
  forall out : list Z,
  refresh_boxes t shadow pitch (bs1 ++ bs2) out
  = o ← refresh_boxes t shadow pitch bs1 out;
    refresh_boxes t shadow pitch bs2 o.
Proof.
  induction bs1 as [|pbox rest IH]; intros out.
  - reflexivity.
  - cbn [refresh_boxes app].
    destruct (refresh_box t shadow pitch pbox out) as [o1|]; [|reflexivity].
    cbn [mbind option_bind]. apply IH.
Qed.

(** X2: one call of [CUBERefreshArea] on a batch does what two calls in a
    row do on its two halves: the boxes are processed one after the other
    and nothing is carried over from box to box but the output surface. *)
Theorem refresh_batch_splits (t : rgb16_tables) (bs1 bs2 : list BoxRec)
    (s : CUBERec) :
  CUBERefreshArea t (bs1 ++ bs2) s
  = s1 ← CUBERefreshArea t bs1 s; CUBERefreshArea t bs2 s1.
Proof.
  unfold CUBERefreshArea. destruct (Blanked s) eqn:Hb.
  - cbn [mbind option_bind]. rewrite Hb. reflexivity.
  - rewrite refresh_boxes_app.
    destruct (refresh_boxes t (ShadowPtr s) (ShadowPitch s) bs1
                (mapped_mem s)) as [o1|]; [|reflexivity].
    cbn [mbind option_bind set_mapped_mem Blanked ShadowPtr ShadowPitch
         mapped_mem].
    rewrite Hb.
    destruct (refresh_boxes t (ShadowPtr s) (ShadowPitch s) bs2 o1)
      as [o2|]; reflexivity.
Qed.

(** Two boxes can be processed in either order. *)
Lemma refresh_box_swap (t : rgb16_tables) (shadow : list Z) (pitch : Z)
    (bx bz : BoxRec) (out o1 o12 : list Z) :
  refresh_box t shadow pitch bx out = Some o1 ->
  refresh_box t shadow pitch bz o1 = Some o12 ->
  exists o2,
    refresh_box t shadow pitch bz out = Some o2
    /\ refresh_box t shadow pitch bx o2 = Some o12.
Proof.
  intros Hx Hz.
  destruct (refresh_box_sound t shadow out pitch bx out o1
              (written_ok_start _ _ _) Hx) as [L1 K1].
  destruct (refresh_box_sim t shadow o1 out pitch bz o1 out o12
              (same_writes_start o1 out L1) Hz)
    as (o2 & Hz2 & _ & L2 & _ & S2).
  destruct (refresh_box_sim t shadow out o2 pitch bx out o2 o1
              (same_writes_start out o2 (eq_sym L2)) Hx)
    as (o21 & Hx2 & _ & _ & _ & S1).
  exists o2. split; [exact Hz2|]. rewrite Hx2. f_equal.
  destruct (refresh_box_sound t shadow o1 pitch bz o1 o12
              (written_ok_start _ _ _) Hz) as [_ K12].
  destruct (refresh_box_sound t shadow out pitch bz out o2
              (written_ok_start _ _ _) Hz2) as [_ K2].
  destruct (refresh_box_sound t shadow o2 pitch bx o2 o21
              (written_ok_start _ _ _) Hx2) as [_ K21].
  apply list_eq. intros k.
  destruct (S1 k) as [A|[A A']], (S2 k) as [B|[B B']],
    (K1 k) as [C|C], (K2 k) as [D|D], (K12 k) as [E|E], (K21 k) as [F|F];
    congruence.
Qed.

Lemma refresh_boxes_perm (t : rgb16_tables) (shadow : list Z) (pitch : Z)
    (bs bs' : list BoxRec) :
  bs ≡ₚ bs' ->
  forall out o : list Z,
  refresh_boxes t shadow pitch bs out = Some o ->
  refresh_boxes t shadow pitch bs' out = Some o.
Proof.
  induction 1 as [|x l l' _ IH|x y l|l l' l'' _ IH1 _ IH2]; intros out o Hrun.
  - exact Hrun.
  - cbn [refresh_boxes] in *.
    destruct (refresh_box t shadow pitch x out) as [o1|]; [|discriminate].
    cbn [mbind option_bind] in *. apply IH. exact Hrun.
  - cbn [refresh_boxes] in *.
    destruct (refresh_box t shadow pitch y out) as [o1|] eqn:Ey;
      [|discriminate].
    cbn [mbind option_bind] in Hrun.
    destruct (refresh_box t shadow pitch x o1) as [o12|] eqn:Ex;
      [|discriminate].
    cbn [mbind option_bind] in Hrun.
    destruct (refresh_box_swap t shadow pitch y x out o1 o12 Ey Ex)
      as (o2 & -> & E2).
    cbn [mbind option_bind]. rewrite E2. exact Hrun.
  - apply IH2, IH1, Hrun.
Qed.

(** X3: the order of the boxes in a batch does not matter: if
    [CUBERefreshArea] returns on a batch, it returns the same state on
    every reordering of it. *)
Theorem refresh_order_irrelevant (t : rgb16_tables) (bs bs' : list BoxRec)
    (s s' : CUBERec) :
  bs ≡ₚ bs' ->
  CUBERefreshArea t bs s = Some s' ->
  CUBERefreshArea t bs' s = Some s'.
Proof.
  unfold CUBERefreshArea. intros Hp Hrun.
  destruct (Blanked s); [exact Hrun|].
  destruct (refresh_boxes t (ShadowPtr s) (ShadowPitch s) bs (mapped_mem s))
    as [o|] eqn:Er; [|discriminate].
  rewrite (refresh_boxes_perm t _ _ bs bs' Hp _ _ Er). exact Hrun.
Qed.

(** A refresh of the 640 x 480 black screen that stays within its first
    12 rows, evaluated on those rows. *)
Lemma black_prefix_refresh (t : rgb16_tables) (boxes : list BoxRec)
    (rows12 : list Z) :
  refresh_boxes t (replicate (Z.to_nat (640 * 12)) 0) 1280 boxes
                (replicate (Z.to_nat (320 * 12)) 0) = Some rows12 ->
  CUBERefreshArea t boxes (black_surface 480)
  = Some (set_mapped_mem (rows12 ++ replicate (Z.to_nat (320 * 468)) 0)
                         (black_surface 480)).
Proof.
  unfold CUBERefreshArea, set_mapped_mem, black_surface.
  cbn [Blanked ShadowPtr ShadowPitch mapped_mem VDisplay].
  change 480 with (12 + 468).
  rewrite !black_rows_split by lia.
  generalize (replicate (Z.to_nat (640 * 12)) 0).
  generalize (replicate (Z.to_nat (320 * 12)) 0).
  generalize (replicate (Z.to_nat (640 * 468)) 0).
  generalize (replicate (Z.to_nat (320 * 468)) 0).
  intros outB shB outA shA E.
  rewrite (refresh_boxes_extend t shA shB outB 1280 boxes outA rows12 E).
  reflexivity.
Qed.

Lemma two_box_rows_eval (t : rgb16_tables) :
  refresh_boxes t (replicate (Z.to_nat (640 * 12)) 0) 1280
                [scenario_box; row11_box]
                (replicate (Z.to_nat (320 * 12)) 0)
  = Some two_box_rows.
Proof. vm_compute. reflexivity. Qed.

Lemma refresh_order_irrelevant_witness :
  [scenario_box; row11_box] ≡ₚ [row11_box; scenario_box]
  /\ CUBERefreshArea initRGB2YUVTables [scenario_box; row11_box]
       (black_surface 480)
     = Some (set_mapped_mem
               (two_box_rows ++ replicate (Z.to_nat (320 * 468)) 0)
               (black_surface 480))
  /\ CUBERefreshArea initRGB2YUVTables [row11_box; scenario_box]
       (black_surface 480)
     = Some (set_mapped_mem
               (two_box_rows ++ replicate (Z.to_nat (320 * 468)) 0)
               (black_surface 480)).
Proof.
  refine (conj (perm_swap _ _ _) (conj _ _)).
  - exact (black_prefix_refresh _ _ _ (two_box_rows_eval _)).
  - exact (refresh_order_irrelevant initRGB2YUVTables
             [scenario_box; row11_box] [row11_box; scenario_box]
             (black_surface 480) _ (perm_swap _ _ _)
             (black_prefix_refresh _ _ _ (two_box_rows_eval _))).
Defined.

(** ** The full-area refresh and the blanking round trip *)

(** X4: on an unblanked screen of pitch 1280 whose height [VDisplay] is
    between 0 and 32767 (it is stored into the [short] field [box.y2]),
    whose shadow surface holds the [640 * VDisplay] pixels of the frame and
    whose output surface holds its [320 * VDisplay] words, [CUBERefreshAll]
    returns; afterwards every word of the frame is the macropixel of its
    two shadow pixels and every later word is as before. *)
Theorem full_refresh_converts_frame (t : rgb16_tables) (s : CUBERec) :
  ShadowPitch s = 1280 -> Blanked s = false -> 0 <= VDisplay s <= 32767 ->
  (Z.to_nat (640 * VDisplay s) <= length (ShadowPtr s))%nat ->
  (Z.to_nat (320 * VDisplay s) <= length (mapped_mem s))%nat ->
  exists o,
    CUBERefreshAll t s = Some (set_mapped_mem o s)
    /\ length o = length (mapped_mem s)
    /\ forall k : nat,
         o !! k = if decide (k < Z.to_nat (320 * VDisplay s))%nat
                  then Some (pair_word t (ShadowPtr s) k)
                  else mapped_mem s !! k.
Proof. apply refresh_all_frame. Qed.

Lemma full_refresh_converts_frame_witness :
  exists o,
    CUBERefreshAll initRGB2YUVTables (black_surface 480)
    = Some (set_mapped_mem o (black_surface 480))
    /\ length o = length (mapped_mem (black_surface 480))
    /\ forall k : nat,
         o !! k = if decide (k < Z.to_nat (320 * VDisplay (black_surface 480)))%nat
                  then Some (pair_word initRGB2YUVTables
                               (ShadowPtr (black_surface 480)) k)
                  else mapped_mem (black_surface 480) !! k.
Proof.
  refine (full_refresh_converts_frame initRGB2YUVTables (black_surface 480)
            eq_refl eq_refl _ _ _).
  - cbn [black_surface VDisplay]. lia.
  - cbn [black_surface VDisplay ShadowPtr]. rewrite length_replicate. lia.
  - cbn [black_surface VDisplay mapped_mem]. rewrite length_replicate. lia.
Defined.

(** X5: on a screen of pitch 1280 whose height [VDisplay] is between 0
    and 32767, whose shadow surface holds the [640 * VDisplay] pixels of
    the frame and whose output surface holds its [320 * VDisplay] words,
    blanking and then unblanking through [CUBESaveScreen] both return,
    whatever the output surface held and whether or not the screen was
    blanked before; the output surface then holds, on the frame, the
    macropixels of the shadow surface and, after the frame, zeros. *)
Theorem blank_unblank_repaints (t : rgb16_tables) (s : CUBERec) :
  ShadowPitch s = 1280 -> 0 <= VDisplay s <= 32767 ->
  (Z.to_nat (640 * VDisplay s) <= length (ShadowPtr s))%nat ->
  (Z.to_nat (320 * VDisplay s) <= length (mapped_mem s))%nat ->
  exists s1 o,
    CUBESaveScreen t false s = Some s1
    /\ CUBESaveScreen t true s1 = Some (set_mapped_mem o (set_Blanked false s))
    /\ length o = length (mapped_mem s)
    /\ forall k : nat,
         o !! k = if decide (k < Z.to_nat (320 * VDisplay s))%nat
                  then Some (pair_word t (ShadowPtr s) k)
                  else if decide (k < length (mapped_mem s))%nat
                       then Some 0 else None.
Proof.
  intros Hp Hv Hsh Hout.
  exists (memset_mapped (set_Blanked true s)).
  destruct (refresh_all_frame t
              (set_Blanked false (memset_mapped (set_Blanked true s))))
    as (o & Hrun & Hlen & Hk);
    try (cbn [set_Blanked memset_mapped set_mapped_mem ShadowPitch Blanked
              VDisplay ShadowPtr mapped_mem]; first [assumption|reflexivity]).
  { cbn [set_Blanked memset_mapped set_mapped_mem mapped_mem VDisplay].
    rewrite length_replicate. exact Hout. }
  cbn [set_Blanked memset_mapped set_mapped_mem ShadowPitch Blanked
       VDisplay ShadowPtr mapped_mem] in Hrun, Hlen, Hk.
  rewrite length_replicate in Hlen.
  exists o. split; [apply blank_screen|].
  split; [rewrite unblank_screen; exact Hrun|].
  split; [exact Hlen|].
  intros k. rewrite Hk.
  destruct (decide (k < Z.to_nat (320 * VDisplay s))%nat); [reflexivity|].
  destruct (decide (k < length (mapped_mem s))%nat).
  - apply lookup_replicate_2. assumption.
  - apply lookup_ge_None_2. rewrite length_replicate. lia.
Qed.

Lemma blank_unblank_repaints_witness :
  exists s1 o,
    CUBESaveScreen initRGB2YUVTables false (black_surface 480) = Some s1
    /\ CUBESaveScreen initRGB2YUVTables true s1
       = Some (set_mapped_mem o (set_Blanked false (black_surface 480)))
    /\ length o = length (mapped_mem (black_surface 480))
    /\ forall k : nat,
         o !! k = if decide (k < Z.to_nat (320 * VDisplay (black_surface 480)))%nat
                  then Some (pair_word initRGB2YUVTables
                               (ShadowPtr (black_surface 480)) k)
                  else if decide (k < length (mapped_mem (black_surface 480)))%nat
                       then Some 0 else None.
Proof.
  refine (blank_unblank_repaints initRGB2YUVTables (black_surface 480)
            eq_refl _ _ _).
  - cbn [black_surface VDisplay]. lia.
  - cbn [black_surface VDisplay ShadowPtr]. rewrite length_replicate. lia.
  - cbn [black_surface VDisplay mapped_mem]. rewrite length_replicate. lia.
Defined.

(** ** The tables and the fixed-point formulas *)

Lemma land_1f_range (x : Z) : 0 <= Z.land x 0x1f <= 31.
Proof.
  change (Z.land x 0x1f) with (Z.land x (Z.ones 5)).
  rewrite Z.land_ones by lia.
  change (2 ^ 5) with 32. pose proof (Z.mod_pos_bound x 32 eq_refl). lia.
Qed.

Lemma land_3f_range (x : Z) : 0 <= Z.land x 0x3f <= 63.
Proof.
  change (Z.land x 0x3f) with (Z.land x (Z.ones 6)).
  rewrite Z.land_ones by lia.
  change (2 ^ 6) with 64. pose proof (Z.mod_pos_bound x 64 eq_refl). lia.
Qed.

(** Bit replication of a 5-bit and of a 6-bit field, as arithmetic. *)
Lemma expand5 (r : Z) :
  0 <= r <= 31 -> Z.lor (Z.shiftl r 3) (Z.shiftr r 2) = 8 * r + r / 4.
Proof.
  intros Hr. rewrite Z.shiftl_mul_pow2, Z.shiftr_div_pow2 by lia.
  change (2 ^ 3) with 8. change (2 ^ 2) with 4.
  rewrite (lor_hi_lo 3); [lia | lia | apply Z_mod_mult |].
  change (2 ^ 3) with 8. Z.to_euclidean_division_equations; lia.
Qed.

Lemma expand6 (g : Z) :
  0 <= g <= 63 -> Z.lor (Z.shiftl g 2) (Z.shiftr g 4) = 4 * g + g / 16.
Proof.
  intros Hg. rewrite Z.shiftl_mul_pow2, Z.shiftr_div_pow2 by lia.
  change (2 ^ 2) with 4. change (2 ^ 4) with 16.
  rewrite (lor_hi_lo 2); [lia | lia | apply Z_mod_mult |].
  change (2 ^ 2) with 4. Z.to_euclidean_division_equations; lia.
Qed.

Lemma red8_expand (i : Z) : red8 i = 8 * red5 i + red5 i / 4.
Proof. unfold red8, red5. cbv zeta. apply expand5, land_1f_range. Qed.

Lemma green8_expand (i : Z) : green8 i = 4 * green6 i + green6 i / 16.
Proof. unfold green8, green6. cbv zeta. apply expand6, land_3f_range. Qed.

Lemma blue8_expand (i : Z) : blue8 i = 8 * blue5 i + blue5 i / 4.
Proof.
  unfold blue8, blue5. cbv zeta. rewrite Z.shiftr_0_r.
  apply expand5, land_1f_range.
Qed.

Lemma red8_byte (i : Z) : is_byte (red8 i).
Proof.
  rewrite red8_expand. pose proof (land_1f_range (Z.shiftr i 11)) as H.
  fold (red5 i) in H. unfold is_byte.
  Z.to_euclidean_division_equations; lia.
Qed.

Lemma green8_byte (i : Z) : is_byte (green8 i).
Proof.
  rewrite green8_expand. pose proof (land_3f_range (Z.shiftr i 5)) as H.
  fold (green6 i) in H. unfold is_byte.
  Z.to_euclidean_division_equations; lia.
Qed.

Lemma blue8_byte (i : Z) : is_byte (blue8 i).
Proof.
  rewrite blue8_expand. pose proof (land_1f_range i) as H.
  fold (blue5 i) in H. unfold is_byte.
  Z.to_euclidean_division_equations; lia.
Qed.

(** The per-channel tables after the first loop. The cell of [b_Ub] is
    written twice, the second time under the name [r_Vr]. *)
Lemma init_chan_contents :
  let tab (k c : Z) := (fun n : nat => to_u32 (k * Z.of_nat n + c)) <$> seq 0 256 in
  r_Yr init_chan = tab Yr 0
  /\ g_Yg_ init_chan = tab Yg (Z.shiftl RGB2YUV_LUMA RGB2YUV_SHIFT)
  /\ b_Yb init_chan = tab Yb 0
  /\ r_Ur init_chan = tab Ur 0
  /\ g_Ug_ init_chan = tab Ug (Z.shiftl RGB2YUV_CHROMA RGB2YUV_SHIFT)
  /\ b_Ub init_chan = tab Ub 0
  /\ r_Vr init_chan = tab Vr 0
  /\ g_Vg_ init_chan = tab Vg (Z.shiftl RGB2YUV_CHROMA RGB2YUV_SHIFT)
  /\ b_Vb init_chan = tab Vb 0.
Proof. vm_compute. repeat split. Qed.

Lemma rd_tab (k c x : Z) :
  is_byte x ->
  rd ((fun n : nat => to_u32 (k * Z.of_nat n + c)) <$> seq 0 256) x
  = to_u32 (k * x + c).
Proof.
  intros Hx. unfold is_byte in Hx. unfold rd.
  rewrite list_lookup_fmap.
  rewrite (proj2 (lookup_seq 0 256 (Z.to_nat x) (Z.to_nat x)))
    by (split; lia).
  cbn [fmap option_fmap option_map default]. rewrite Z2Nat.id by lia.
  reflexivity.
Qed.

(** Adding three [u32] cells and shifting gives the plain quotient when
    the plain sum fits in 32 bits. *)
Lemma sum3_shift_exact (a b c : Z) :
  0 <= a + b + c < 2 ^ 32 ->
  sum3_shift (to_u32 a) (to_u32 b) (to_u32 c) = (a + b + c) / 2 ^ 16.
Proof.
  intros H. unfold sum3_shift, to_u32, RGB2YUV_SHIFT.
  change (2 ^ 32) with 4294967296 in *.
  rewrite <- (Z.add_mod a b) by lia.
  rewrite <- (Z.add_mod (a + b) c) by lia.
  rewrite Z.mod_small by exact H.
  apply Z.shiftr_div_pow2. lia.
Qed.

Lemma coef_values :
  Yr = 19595 /\ Yg = 38469 /\ Yb = 7471
  /\ Ur = -11075 /\ Ug = -21692 /\ Ub = 32768
  /\ Vr = 32768 /\ Vg = -27459 /\ Vb = -5308.
Proof. repeat split. Qed.

Lemma entries_fixed (i : Z) :
  Y_entry init_chan i
  = clamp 16 235 (luma_fixed (red8 i) (green8 i) (blue8 i))
  /\ U_entry init_chan i
     = clamp 16 240 (cb_fixed (red8 i) (green8 i) (blue8 i))
  /\ V_entry init_chan i
     = clamp 16 240 (cr_fixed (red8 i) (green8 i) (blue8 i)).
Proof.
  pose proof (red8_byte i) as Hr. pose proof (green8_byte i) as Hg.
  pose proof (blue8_byte i) as Hb.
  destruct init_chan_contents as (E1 & E2 & E3 & E4 & E5 & E6 & E7 & E8 & E9).
  destruct coef_values as (C1 & C2 & C3 & C4 & C5 & C6 & C7 & C8 & C9).
  unfold Y_entry, U_entry, V_entry. cbv zeta.
  rewrite E1, E2, E3, E4, E5, E6, E7, E8, E9.
  rewrite !rd_tab by assumption.
  unfold luma_fixed, cb_fixed, cr_fixed, is_byte in *.
  change (Z.shiftl RGB2YUV_LUMA RGB2YUV_SHIFT) with (16 * 2 ^ 16).
  change (Z.shiftl RGB2YUV_CHROMA RGB2YUV_SHIFT) with (128 * 2 ^ 16).
  change RGB2YUV_LUMA with 16. change RGB2YUV_CHROMA with 128.
  rewrite !sum3_shift_exact
    by (rewrite ?C1, ?C2, ?C3, ?C4, ?C5, ?C6, ?C7, ?C8, ?C9;
        change (2 ^ 16) with 65536; change (2 ^ 32) with 4294967296; lia).
  rewrite !Z.add_0_r.
  repeat split.
  - rewrite to_u8_byte.
    + f_equal. f_equal. lia.
    + pose proof (clamp_range 16 235
        ((Yr * red8 i + 0 + (Yg * green8 i + 16 * 2 ^ 16) + (Yb * blue8 i)) / 2 ^ 16)
        ltac:(lia)).
      unfold is_byte. rewrite ?Z.add_0_r in *. lia.
  - rewrite to_u8_byte.
    + f_equal. f_equal. lia.
    + pose proof (clamp_range 16 240
        ((Ur * red8 i + (Ug * green8 i + 128 * 2 ^ 16) + Ub * blue8 i) / 2 ^ 16)
        ltac:(lia)).
      unfold is_byte. lia.
  - rewrite to_u8_byte.
    + f_equal. f_equal. lia.
    + pose proof (clamp_range 16 240
        ((Vr * red8 i + (Vg * green8 i + 128 * 2 ^ 16) + Vb * blue8 i) / 2 ^ 16)
        ltac:(lia)).
      unfold is_byte. lia.
Qed.

(** X6: after [initRGB2YUVTables] every direct-table entry is the clamped
    fixed-point formula on the pixel's bit-replicated channels, computed in
    plain integers: storing the negative chroma products into [u32] cells
    and adding them with wrap-around loses nothing. *)
Theorem tables_are_fixed_point_formulas (i : Z) :
  is_u16 i ->
  rd (RGB16toY initRGB2YUVTables) i
  = clamp 16 235 (luma_fixed (red8 i) (green8 i) (blue8 i))
  /\ rd (RGB16toU initRGB2YUVTables) i
     = clamp 16 240 (cb_fixed (red8 i) (green8 i) (blue8 i))
  /\ rd (RGB16toV initRGB2YUVTables) i
     = clamp 16 240 (cr_fixed (red8 i) (green8 i) (blue8 i)).
Proof.
  intros Hi. destruct (init_tables_rd i Hi) as (-> & -> & ->).
  apply entries_fixed.
Qed.

Lemma tables_are_fixed_point_formulas_witness :
  rd (RGB16toY initRGB2YUVTables) 0xf800
  = clamp 16 235 (luma_fixed (red8 0xf800) (green8 0xf800) (blue8 0xf800))
  /\ rd (RGB16toU initRGB2YUVTables) 0xf800
     = clamp 16 240 (cb_fixed (red8 0xf800) (green8 0xf800) (blue8 0xf800))
  /\ rd (RGB16toV initRGB2YUVTables) 0xf800
     = clamp 16 240 (cr_fixed (red8 0xf800) (green8 0xf800) (blue8 0xf800)).
Proof.
  refine (tables_are_fixed_point_formulas 0xf800 _). unfold is_u16. lia.
Defined.

Lemma clamp_mono (x y z1 z2 : Z) :
  x <= y -> z1 <= z2 -> clamp x y z1 <= clamp x y z2.
Proof.
  intros Hxy Hz. unfold clamp.
  destruct (Z.ltb_spec z1 x), (Z.ltb_spec z2 x); try lia;
    destruct (Z.gtb_spec z1 y), (Z.gtb_spec z2 y); lia.
Qed.

Lemma expand5_mono (a b : Z) :
  0 <= a <= b -> 8 * a + a / 4 <= 8 * b + b / 4.
Proof. intros H. Z.to_euclidean_division_equations; lia. Qed.

Lemma expand6_mono (a b : Z) :
  0 <= a <= b -> 4 * a + a / 16 <= 4 * b + b / 16.
Proof. intros H. Z.to_euclidean_division_equations; lia. Qed.

Lemma channels_mono (p q : Z) :
  (red5 p <= red5 q -> red8 p <= red8 q)
  /\ (green6 p <= green6 q -> green8 p <= green8 q)
  /\ (blue5 p <= blue5 q -> blue8 p <= blue8 q).
Proof.
  rewrite !red8_expand, !green8_expand, !blue8_expand.
  pose proof (land_1f_range (Z.shiftr p 11)) as Hr. fold (red5 p) in Hr.
  pose proof (land_3f_range (Z.shiftr p 5)) as Hg. fold (green6 p) in Hg.
  pose proof (land_1f_range p) as Hb. fold (blue5 p) in Hb.
  repeat split; intros H;
    [apply expand5_mono | apply expand6_mono | apply expand5_mono]; lia.
Qed.

(** X7: luma is monotone in each colour field: a pixel whose red, green
    and blue fields are all at least those of another has a luma table
    entry at least as large. *)
Theorem luma_monotone (p q : Z) :
  is_u16 p -> is_u16 q ->
  red5 p <= red5 q -> green6 p <= green6 q -> blue5 p <= blue5 q ->
  rd (RGB16toY initRGB2YUVTables) p <= rd (RGB16toY initRGB2YUVTables) q.
Proof.
  intros Hp Hq Hr Hg Hb.
  destruct (init_tables_rd p Hp) as (-> & _ & _).
  destruct (init_tables_rd q Hq) as (-> & _ & _).
  destruct (entries_fixed p) as (-> & _ & _).
  destruct (entries_fixed q) as (-> & _ & _).
  destruct (channels_mono p q) as (Mr & Mg & Mb).
  specialize (Mr Hr). specialize (Mg Hg). specialize (Mb Hb).
  destruct coef_values as (C1 & C2 & C3 & _).
  apply clamp_mono; [lia|]. unfold luma_fixed.
  apply Z.div_le_mono; [reflexivity|]. rewrite C1, C2, C3. lia.
Qed.

Lemma luma_monotone_witness :
  rd (RGB16toY initRGB2YUVTables) 0x0841
  <= rd (RGB16toY initRGB2YUVTables) 0x1082.
Proof.
  refine (luma_monotone 0x0841 0x1082 _ _ _ _ _);
    try (unfold is_u16; lia); vm_compute; discriminate.
Defined.

(** X8: Cb follows blue and runs against red and green: a pixel with
    blue field not smaller, and red and green fields not larger, than
    another's has a Cb table entry at least as large. *)
Theorem cb_monotone (p q : Z) :
  is_u16 p -> is_u16 q ->
  blue5 p <= blue5 q -> red5 q <= red5 p -> green6 q <= green6 p ->
  rd (RGB16toU initRGB2YUVTables) p <= rd (RGB16toU initRGB2YUVTables) q.
Proof.
  intros Hp Hq Hb Hr Hg.
  destruct (init_tables_rd p Hp) as (_ & -> & _).
  destruct (init_tables_rd q Hq) as (_ & -> & _).
  destruct (entries_fixed p) as (_ & -> & _).
  destruct (entries_fixed q) as (_ & -> & _).
  destruct (channels_mono p q) as (_ & _ & Mb).
  destruct (channels_mono q p) as (Mr & Mg & _).
  specialize (Mb Hb). specialize (Mr Hr). specialize (Mg Hg).
  destruct coef_values as (_ & _ & _ & C4 & C5 & C6 & _).
  apply clamp_mono; [lia|]. unfold cb_fixed.
  apply Z.div_le_mono; [reflexivity|]. rewrite C4, C5, C6. lia.
Qed.

Lemma cb_monotone_witness :
  rd (RGB16toU initRGB2YUVTables) 0x0841
  <= rd (RGB16toU initRGB2YUVTables) 0x001f.
Proof.
  refine (cb_monotone 0x0841 0x001f _ _ _ _ _);
    try (unfold is_u16; lia); vm_compute; discriminate.
Defined.

(** X9: Cr follows red and runs against green and blue: a pixel with red
    field not smaller, and green and blue fields not larger, than
    another's has a Cr table entry at least as large. *)
Theorem cr_monotone (p q : Z) :
  is_u16 p -> is_u16 q ->
  red5 p <= red5 q -> green6 q <= green6 p -> blue5 q <= blue5 p ->
  rd (RGB16toV initRGB2YUVTables) p <= rd (RGB16toV initRGB2YUVTables) q.
Proof.
  intros Hp Hq Hr Hg Hb.
  destruct (init_tables_rd p Hp) as (_ & _ & ->).
  destruct (init_tables_rd q Hq) as (_ & _ & ->).
  destruct (entries_fixed p) as (_ & _ & ->).
  destruct (entries_fixed q) as (_ & _ & ->).
  destruct (channels_mono p q) as (Mr & _ & _).
  destruct (channels_mono q p) as (_ & Mg & Mb).
  specialize (Mr Hr). specialize (Mg Hg). specialize (Mb Hb).
  destruct coef_values as (_ & _ & _ & _ & _ & _ & C7 & C8 & C9).
  apply clamp_mono; [lia|]. unfold cr_fixed.
  apply Z.div_le_mono; [reflexivity|]. rewrite C7, C8, C9. lia.
Qed.

Lemma cr_monotone_witness :
  rd (RGB16toV initRGB2YUVTables) 0x0841
  <= rd (RGB16toV initRGB2YUVTables) 0xf800.
Proof.
  refine (cr_monotone 0x0841 0xf800 _ _ _ _ _);
    try (unfold is_u16; lia); vm_compute; discriminate.
Defined.

(** ** Running the initialisation again *)

Section FillLoop.

Context {St : Type} (proj : St -> list Z) (step : St -> nat -> St)
  (f : nat -> Z).
Hypothesis step_proj : forall s k, proj (step s k) = <[k := f k]> (proj s).

Lemma fill_loop_lookup (n : nat) :
  forall (s : St) (k : nat),
  proj (fold_left step (seq 0 n) s) !! k
  = if decide (k < n)%nat
    then (fun _ => f k) <$> proj s !! k
    else proj s !! k.
Proof.
  induction n as [|n IH]; intros s k.
  - cbn. destruct (decide _); [lia | reflexivity].
  - rewrite seq_S, fold_left_app. cbn [fold_left Nat.add].
    rewrite step_proj.
    destruct (decide (k = n)) as [->|Hne].
    + destruct (decide (n < S n)%nat); [|lia].
      destruct (decide (n < length (proj (fold_left step (seq 0 n) s)))%nat)
        as [Hlt|Hge].
      * rewrite list_lookup_insert_eq by exact Hlt.
        apply lookup_lt_is_Some_2 in Hlt as [x Hx].
        rewrite IH in Hx. destruct (decide (n < n)%nat); [lia|].
        rewrite Hx. reflexivity.
      * rewrite list_insert_ge by lia. rewrite IH.
        destruct (decide (n < n)%nat); [lia|].
        assert (Hn : proj (fold_left step (seq 0 n) s) !! n = None)
          by (apply lookup_ge_None_2; lia).
        rewrite IH in Hn. destruct (decide (n < n)%nat); [lia|].
        rewrite Hn. reflexivity.
    + rewrite list_lookup_insert_ne by congruence. rewrite IH.
      destruct (decide (k < n)%nat), (decide (k < S n)%nat);
        first [reflexivity | lia].
Qed.

(** A loop that stores [f k] at every index [k] of an array of [n] cells
    leaves [f 0, ..., f (n - 1)], whatever the array held. *)
Lemma fill_loop_full (n : nat) (s : St) :
  length (proj s) = n ->
  proj (fold_left step (seq 0 n) s) = f <$> seq 0 n.
Proof.
  intros Hlen. apply list_eq. intros k. rewrite fill_loop_lookup.
  rewrite list_lookup_fmap.
  destruct (decide (k < n)%nat) as [Hlt|Hge].
  - rewrite (lookup_seq_lt 0 n k Hlt).
    destruct (lookup_lt_is_Some_2 (proj s) k) as [x ->]; [lia|].
    reflexivity.
  - rewrite (lookup_seq_ge 0 n k) by lia.
    rewrite lookup_ge_None_2 by lia. reflexivity.
Qed.

End FillLoop.

Lemma chan_tables_eq (c c' : chan_tables) :
  r_Yr c = r_Yr c' -> g_Yg_ c = g_Yg_ c' -> b_Yb c = b_Yb c' ->
  r_Ur c = r_Ur c' -> g_Ug_ c = g_Ug_ c' -> b_Ub c = b_Ub c' ->
  g_Vg_ c = g_Vg_ c' -> b_Vb c = b_Vb c' -> c = c'.
Proof.
  destruct c, c'. cbn. intros. subst. reflexivity.
Qed.

Lemma rgb16_tables_eq (t t' : rgb16_tables) :
  RGB16toY t = RGB16toY t' -> RGB16toU t = RGB16toU t' ->
  RGB16toV t = RGB16toV t' -> t = t'.
Proof.
  destruct t, t'. cbn. intros. subst. reflexivity.
Qed.

(** The first loop overwrites every cell of the eight arrays. *)
Lemma init_chan_any (c0 c1 : chan_tables) :
  chan_sized c0 -> chan_sized c1 ->
  fold_left init_chan_step (seq 0 256) c0
  = fold_left init_chan_step (seq 0 256) c1.
Proof.
  intros (A1 & A2 & A3 & A4 & A5 & A6 & A7 & A8)
         (B1 & B2 & B3 & B4 & B5 & B6 & B7 & B8).
  apply chan_tables_eq.
  - rewrite !(fill_loop_full r_Yr init_chan_step
                (fun k => to_u32 (Yr * Z.of_nat k))) by (reflexivity || assumption).
    reflexivity.
  - rewrite !(fill_loop_full g_Yg_ init_chan_step
                (fun k => to_u32 (Yg * Z.of_nat k
                                  + Z.shiftl RGB2YUV_LUMA RGB2YUV_SHIFT)))
      by (reflexivity || assumption).
    reflexivity.
  - rewrite !(fill_loop_full b_Yb init_chan_step
                (fun k => to_u32 (Yb * Z.of_nat k))) by (reflexivity || assumption).
    reflexivity.
  - rewrite !(fill_loop_full r_Ur init_chan_step
                (fun k => to_u32 (Ur * Z.of_nat k))) by (reflexivity || assumption).
    reflexivity.
  - rewrite !(fill_loop_full g_Ug_ init_chan_step
                (fun k => to_u32 (Ug * Z.of_nat k
                                  + Z.shiftl RGB2YUV_CHROMA RGB2YUV_SHIFT)))
      by (reflexivity || assumption).
    reflexivity.
  - assert (Hstep : forall s k, b_Ub (init_chan_step s k)
                      = <[k := to_u32 (Vr * Z.of_nat k)]> (b_Ub s)).
    { intros s k. unfold init_chan_step, set_r_Vr. cbn [b_Ub set_b_Vb set_g_Vg_
        set_b_Ub set_g_Ug_ set_r_Ur set_b_Yb set_g_Yg_ set_r_Yr].
      apply list_insert_insert_eq. }
    rewrite !(fill_loop_full b_Ub init_chan_step _ Hstep) by assumption.
    reflexivity.
  - rewrite !(fill_loop_full g_Vg_ init_chan_step
                (fun k => to_u32 (Vg * Z.of_nat k
                                  + Z.shiftl RGB2YUV_CHROMA RGB2YUV_SHIFT)))
      by (reflexivity || assumption).
    reflexivity.
  - rewrite !(fill_loop_full b_Vb init_chan_step
                (fun k => to_u32 (Vb * Z.of_nat k))) by (reflexivity || assumption).
    reflexivity.
Qed.

(** So does the second loop, for the three direct tables. *)
Lemma init_rgb16_any (c : chan_tables) (t0 t1 : rgb16_tables) :
  rgb16_sized t0 -> rgb16_sized t1 ->
  fold_left (init_rgb16_step c) (seq 0 rgb16_len) t0
  = fold_left (init_rgb16_step c) (seq 0 rgb16_len) t1.
Proof.
  intros (A1 & A2 & A3) (B1 & B2 & B3).
  apply rgb16_tables_eq.
  - rewrite !(fill_loop_full RGB16toY (init_rgb16_step c)
                (fun k => Y_entry c (Z.of_nat k))) by (reflexivity || assumption).
    reflexivity.
  - rewrite !(fill_loop_full RGB16toU (init_rgb16_step c)
                (fun k => U_entry c (Z.of_nat k))) by (reflexivity || assumption).
    reflexivity.
  - rewrite !(fill_loop_full RGB16toV (init_rgb16_step c)
                (fun k => V_entry c (Z.of_nat k))) by (reflexivity || assumption).
    reflexivity.
Qed.

Lemma chan_zero_sized : chan_sized chan_zero.
Proof. repeat split. Qed.

Lemma rgb16_zero_sized : rgb16_sized rgb16_zero.
Proof. repeat split; apply length_replicate. Qed.

#[local] Transparent initRGB2YUVTables.

Lemma initRGB2YUVTables_unfold :
  initRGB2YUVTables
  = fold_left (init_rgb16_step init_chan) (seq 0 rgb16_len) rgb16_zero.
Proof. unfold initRGB2YUVTables. reflexivity. Qed.

#[global] Opaque initRGB2YUVTables.

Lemma initRGB2YUVTables_on_any (c0 : chan_tables) (t0 : rgb16_tables) :
  chan_sized c0 -> rgb16_sized t0 ->
  initRGB2YUVTables_on c0 t0 = (init_chan, initRGB2YUVTables).
Proof.
  intros Hc Ht. unfold initRGB2YUVTables_on. cbv zeta.
  rewrite (init_chan_any c0 chan_zero Hc chan_zero_sized).
  fold init_chan. rewrite initRGB2YUVTables_unfold.
  rewrite (init_rgb16_any init_chan t0 rgb16_zero Ht rgb16_zero_sized).
  reflexivity.
Qed.

(** X10: [initRGB2YUVTables] does not depend on what the tables held: run
    on arrays of the declared sizes with any contents (as at the second
    and later mode initialisations) it leaves the tables it leaves on
    zeroed storage. *)
Theorem init_tables_again (c0 : chan_tables) (t0 : rgb16_tables) :
  chan_sized c0 -> rgb16_sized t0 ->
  initRGB2YUVTables_on c0 t0 = (init_chan, initRGB2YUVTables).
Proof. exact (initRGB2YUVTables_on_any c0 t0). Qed.

Lemma init_chan_sized : chan_sized init_chan.
Proof. vm_compute. repeat split. Qed.

Lemma init_tables_sized : rgb16_sized initRGB2YUVTables.
Proof.
  rewrite initRGB2YUVTables_unfold.
  apply (init_rgb16_loop init_chan rgb16_len (Nat.le_refl _)).
Qed.

Lemma init_tables_again_witness :
  initRGB2YUVTables_on init_chan initRGB2YUVTables
  = (init_chan, initRGB2YUVTables).
Proof.
  exact (init_tables_again init_chan initRGB2YUVTables
           init_chan_sized init_tables_sized).
Defined.

(** ** The kernel on a mirrored pair *)

Lemma mean_rgb565_comm (rgb1 rgb2 : Z) :
  mean_rgb565 rgb1 rgb2 = mean_rgb565 rgb2 rgb1.
Proof.
  unfold mean_rgb565. f_equal.
  rewrite (Z.land_comm rgb1 rgb2). lia.
Qed.

Lemma chroma_pixel_comm (rgb1 rgb2 : Z) :
  chroma_pixel rgb1 rgb2 = chroma_pixel rgb2 rgb1.
Proof.
  unfold chroma_pixel. rewrite (Z.eqb_sym rgb2 rgb1).
  destruct (Z.eqb_spec rgb1 rgb2) as [->|_]; [reflexivity|].
  apply mean_rgb565_comm.
Qed.

(** X11: swapping the two pixels of a pair swaps the two luma bytes of the
    macropixel and keeps its two chroma bytes. *)
Theorem mirrored_pair_swaps_luma (rgb1 rgb2 : Z) :
  is_u16 rgb1 -> is_u16 rgb2 ->
  byte_of (rgbrgb16toyuy2 initRGB2YUVTables rgb2 rgb1) 3
  = byte_of (rgbrgb16toyuy2 initRGB2YUVTables rgb1 rgb2) 1
  /\ byte_of (rgbrgb16toyuy2 initRGB2YUVTables rgb2 rgb1) 1
     = byte_of (rgbrgb16toyuy2 initRGB2YUVTables rgb1 rgb2) 3
  /\ byte_of (rgbrgb16toyuy2 initRGB2YUVTables rgb2 rgb1) 2
     = byte_of (rgbrgb16toyuy2 initRGB2YUVTables rgb1 rgb2) 2
  /\ byte_of (rgbrgb16toyuy2 initRGB2YUVTables rgb2 rgb1) 0
     = byte_of (rgbrgb16toyuy2 initRGB2YUVTables rgb1 rgb2) 0.
Proof.
  intros H1 H2.
  destruct (Z.eq_dec rgb1 0) as [->|N1].
  - destruct (Z.eq_dec rgb2 0) as [->|N2]; [repeat split|].
    rewrite !nonzero_pair_uses_tables by (auto; lia).
    destruct (table_path_layout rgb2 0 H2 H1) as [(A3 & A2 & A1 & A0) _].
    destruct (table_path_layout 0 rgb2 H1 H2) as [(B3 & B2 & B1 & B0) _].
    rewrite (chroma_pixel_comm rgb2 0) in A2, A0.
    rewrite A3, A2, A1, A0, B3, B2, B1, B0. repeat split.
  - rewrite !nonzero_pair_uses_tables by (auto; lia).
    destruct (table_path_layout rgb2 rgb1 H2 H1) as [(A3 & A2 & A1 & A0) _].
    destruct (table_path_layout rgb1 rgb2 H1 H2) as [(B3 & B2 & B1 & B0) _].
    rewrite (chroma_pixel_comm rgb2 rgb1) in A2, A0.
    rewrite A3, A2, A1, A0, B3, B2, B1, B0. repeat split.
Qed.

Lemma mirrored_pair_swaps_luma_witness :
  byte_of (rgbrgb16toyuy2 initRGB2YUVTables 0x001f 0xf800) 3
  = byte_of (rgbrgb16toyuy2 initRGB2YUVTables 0xf800 0x001f) 1
  /\ byte_of (rgbrgb16toyuy2 initRGB2YUVTables 0x001f 0xf800) 1
     = byte_of (rgbrgb16toyuy2 initRGB2YUVTables 0xf800 0x001f) 3
  /\ byte_of (rgbrgb16toyuy2 initRGB2YUVTables 0x001f 0xf800) 2
     = byte_of (rgbrgb16toyuy2 initRGB2YUVTables 0xf800 0x001f) 2
  /\ byte_of (rgbrgb16toyuy2 initRGB2YUVTables 0x001f 0xf800) 0
     = byte_of (rgbrgb16toyuy2 initRGB2YUVTables 0xf800 0x001f) 0.
Proof.
  refine (mirrored_pair_swaps_luma 0xf800 0x001f _ _); unfold is_u16; lia.
Defined.

(** X12: the macropixel of any pair is a non-zero 32-bit word (so never
    the zero word that blanking writes), and either both pixels are 0 or
    its luma bytes lie in [16, 235] and its chroma bytes in [16, 240]. *)
Theorem macropixel_bytes_in_range (rgb1 rgb2 : Z) :
  is_u16 rgb1 -> is_u16 rgb2 ->
  0 < rgbrgb16toyuy2 initRGB2YUVTables rgb1 rgb2 < 2 ^ 32
  /\ (rgb1 = 0 /\ rgb2 = 0
      \/ 16 <= byte_of (rgbrgb16toyuy2 initRGB2YUVTables rgb1 rgb2) 3 <= 235
      /\ 16 <= byte_of (rgbrgb16toyuy2 initRGB2YUVTables rgb1 rgb2) 2 <= 240
      /\ 16 <= byte_of (rgbrgb16toyuy2 initRGB2YUVTables rgb1 rgb2) 1 <= 235
      /\ 16 <= byte_of (rgbrgb16toyuy2 initRGB2YUVTables rgb1 rgb2) 0 <= 240).
Proof.
  intros H1 H2.
  pose proof (chroma_pixel_u16 rgb1 rgb2 H1) as Hc.
  destruct (init_tables_rd rgb1 H1) as (Y1 & _ & _).
  destruct (init_tables_rd rgb2 H2) as (Y2 & _ & _).
  destruct (init_tables_rd _ Hc) as (_ & U & V).
  pose proof (Y_entry_range init_chan rgb1) as RY1.
  pose proof (Y_entry_range init_chan rgb2) as RY2.
  pose proof (U_entry_range init_chan (chroma_pixel rgb1 rgb2)) as RU.
  pose proof (V_entry_range init_chan (chroma_pixel rgb1 rgb2)) as RV.
  rewrite <- Y1 in RY1. rewrite <- Y2 in RY2. rewrite <- U in RU.
  rewrite <- V in RV.
  assert (Htab : rgb1 <> 0 \/ rgb2 <> 0 ->
            0 < rgbrgb16toyuy2 initRGB2YUVTables rgb1 rgb2 < 2 ^ 32
            /\ yuy2_layout initRGB2YUVTables rgb1 rgb2
                 (rgbrgb16toyuy2 initRGB2YUVTables rgb1 rgb2)).
  { intros Hnz. rewrite nonzero_pair_uses_tables by assumption.
    destruct (table_path_layout rgb1 rgb2 H1 H2) as [HL _].
    split; [|exact HL].
    rewrite yuy2_from_tables_pack, pack_yuy2_sum by (unfold is_byte; lia).
    change (2 ^ 32) with 4294967296. lia. }
  split.
  - destruct (Z.eq_dec rgb1 0) as [E1|N1];
      [|destruct (Htab (or_introl N1)) as [Hr _]; exact Hr].
    destruct (Z.eq_dec rgb2 0) as [E2|N2];
      [|destruct (Htab (or_intror N2)) as [Hr _]; exact Hr].
    rewrite E1, E2, zero_pair_constant.
    change (2 ^ 32) with 4294967296. lia.
  - destruct (Z.eq_dec rgb1 0) as [E1|N1].
    + destruct (Z.eq_dec rgb2 0) as [E2|N2]; [left; auto|].
      right. destruct (Htab (or_intror N2)) as [_ (B3 & B2 & B1 & B0)].
      rewrite B3, B2, B1, B0. auto.
    + right. destruct (Htab (or_introl N1)) as [_ (B3 & B2 & B1 & B0)].
      rewrite B3, B2, B1, B0. auto.
Qed.

Lemma macropixel_bytes_in_range_witness :
  0 < rgbrgb16toyuy2 initRGB2YUVTables 0xf800 0x001f < 2 ^ 32
  /\ (0xf800 = 0 /\ 0x001f = 0
      \/ 16 <= byte_of (rgbrgb16toyuy2 initRGB2YUVTables 0xf800 0x001f) 3 <= 235
      /\ 16 <= byte_of (rgbrgb16toyuy2 initRGB2YUVTables 0xf800 0x001f) 2 <= 240
      /\ 16 <= byte_of (rgbrgb16toyuy2 initRGB2YUVTables 0xf800 0x001f) 1 <= 235
      /\ 16 <= byte_of (rgbrgb16toyuy2 initRGB2YUVTables 0xf800 0x001f) 0 <= 240).
Proof.
  refine (macropixel_bytes_in_range 0xf800 0x001f _ _); unfold is_u16; lia.
Defined.

(** ** The mean pixel: the blue field *)

Lemma land_bit0 (a b : Z) :
  Z.land (Z.land a b) 1
  = Z.b2z (Z.testbit a 0 && Z.testbit b 0).
Proof.
  change 1 with (Z.ones 1) at 1. rewrite Z.land_ones by lia.
  change (2 ^ 1) with 2. rewrite <- Z.bit0_mod.
  rewrite Z.land_spec. reflexivity.
Qed.

(** X13: the blue field of the mean pixel is the mean of the two blue
    fields, rounded down, for every pair of pixels: nothing carries into
    it, and its correction bit is its own lowest bit. *)
Theorem mean_blue_field_exact (rgb1 rgb2 : Z) :
  blue5 (mean_rgb565 rgb1 rgb2) = (blue5 rgb1 + blue5 rgb2) / 2.
Proof.
  unfold blue5, mean_rgb565, to_u16.
  change 0x1f with (Z.ones 5). rewrite !Z.land_ones by lia.
  change (2 ^ 5) with 32. change (2 ^ 16) with 65536.
  set (X := Z.land (Z.shiftr rgb1 1) (Z.lnot 0x8410)).
  set (Y := Z.land (Z.shiftr rgb2 1) (Z.lnot 0x8410)).
  set (W := Z.land (Z.land rgb1 rgb2) 0x0841).
  assert (HX : X mod 32 = (rgb1 / 2) mod 16).
  { subst X. change 32 with (2 ^ 5). rewrite <- Z.land_ones by lia.
    rewrite <- Z.land_assoc.
    change (Z.land (Z.lnot 0x8410) (Z.ones 5)) with (Z.ones 4).
    rewrite Z.land_ones, Z.shiftr_div_pow2 by lia. reflexivity. }
  assert (HY : Y mod 32 = (rgb2 / 2) mod 16).
  { subst Y. change 32 with (2 ^ 5). rewrite <- Z.land_ones by lia.
    rewrite <- Z.land_assoc.
    change (Z.land (Z.lnot 0x8410) (Z.ones 5)) with (Z.ones 4).
    rewrite Z.land_ones, Z.shiftr_div_pow2 by lia. reflexivity. }
  assert (HW : W mod 32 = Z.b2z (Z.testbit rgb1 0 && Z.testbit rgb2 0)).
  { subst W. change 32 with (2 ^ 5). rewrite <- Z.land_ones by lia.
    rewrite <- Z.land_assoc.
    change (Z.land 0x0841 (Z.ones 5)) with 1. apply land_bit0. }
  pose proof (Z.bit0_mod rgb1) as B1. pose proof (Z.bit0_mod rgb2) as B2.
  clearbody X Y W.
  destruct (Z.testbit rgb1 0), (Z.testbit rgb2 0); cbn [andb Z.b2z] in *;
    Z.to_euclidean_division_equations; lia.
Qed.

(** ** Geometry set up at screen and frame-buffer initialisation *)

Lemma land_lnot_ones (x n : Z) :
  0 <= n -> Z.land x (Z.lnot (Z.ones n)) = 2 ^ n * (x / 2 ^ n).
Proof.
  intros Hn. rewrite <- Z.ldiff_land, Z.ldiff_ones_r by exact Hn.
  rewrite Z.shiftl_mul_pow2, Z.shiftr_div_pow2 by exact Hn. lia.
Qed.

(** X14: the shadow pitch is the row's byte length rounded up to a
    multiple of 4; for the driver's 640 pixels of 16 bits it is 1280. *)
Theorem shadow_pitch_rounds_up (virtualX bitsPerPixel : Z) :
  0 <= virtualX * bitsPerPixel < 2 ^ 31 ->
  shadow_pitch virtualX bitsPerPixel mod 4 = 0
  /\ (virtualX * bitsPerPixel) / 8 <= shadow_pitch virtualX bitsPerPixel
     < (virtualX * bitsPerPixel) / 8 + 4
  /\ shadow_pitch 640 16 = 1280.
Proof.
  intros H. change (2 ^ 31) with 2147483648 in H.
  assert (Heq : shadow_pitch virtualX bitsPerPixel
                = 4 * (((virtualX * bitsPerPixel) / 8 + 3) / 4)).
  { unfold shadow_pitch, to_u32.
    change (Z.lnot 3) with (Z.lnot (Z.ones 2)).
    rewrite land_lnot_ones by lia. rewrite Z.shiftr_div_pow2 by lia.
    change (2 ^ 3) with 8. change (2 ^ 2) with 4.
    change (2 ^ 32) with 4294967296.
    apply Z.mod_small. Z.to_euclidean_division_equations; lia. }
  rewrite Heq.
  split; [|split; [|reflexivity]];
    Z.to_euclidean_division_equations; lia.
Qed.

Lemma shadow_pitch_rounds_up_witness :
  shadow_pitch 641 16 mod 4 = 0
  /\ (641 * 16) / 8 <= shadow_pitch 641 16 < (641 * 16) / 8 + 4
  /\ shadow_pitch 640 16 = 1280.
Proof.
  refine (shadow_pitch_rounds_up 641 16 _).
  change (2 ^ 31) with 2147483648. lia.
Defined.

(** X15: for a page size that is a power of two, the mapping offset is
    the offset of the frame buffer's start address within its page: it
    lies in [0, pagesize) and the start address less the offset is a
    multiple of the page size. *)
Theorem mapped_offset_in_page (smem_start k : Z) :
  0 <= smem_start < 2 ^ 32 -> 0 <= k <= 30 ->
  mapped_offset_of smem_start (2 ^ k) = smem_start mod 2 ^ k
  /\ 0 <= mapped_offset_of smem_start (2 ^ k) < 2 ^ k
  /\ (smem_start - mapped_offset_of smem_start (2 ^ k)) mod 2 ^ k = 0.
Proof.
  intros Hs Hk.
  assert (Hp : 0 < 2 ^ k) by (apply Z.pow_pos_nonneg; lia).
  assert (Hp30 : 2 ^ k <= 2 ^ 30) by (apply Z.pow_le_mono_r; lia).
  assert (Hmain : mapped_offset_of smem_start (2 ^ k) = smem_start mod 2 ^ k).
  { unfold mapped_offset_of, to_long.
    replace (2 ^ k - 1) with (Z.ones k) by (rewrite Z.ones_equiv; lia).
    rewrite land_lnot_ones by lia.
    set (s := to_int smem_start).
    replace (s - 2 ^ k * (s / 2 ^ k)) with (s mod 2 ^ k)
      by (rewrite Z.mod_eq by lia; reflexivity).
    assert (Hsm : s mod 2 ^ k = smem_start mod 2 ^ k).
    { subst s. unfold to_int.
      assert (Hcase : (smem_start + 2 ^ 31) mod 2 ^ 32 - 2 ^ 31 = smem_start
                      \/ (smem_start + 2 ^ 31) mod 2 ^ 32 - 2 ^ 31
                         = smem_start - 2 ^ 32).
      { change (2 ^ 31) with 2147483648. change (2 ^ 32) with 4294967296 in *.
        Z.to_euclidean_division_equations; lia. }
      destruct Hcase as [-> | ->]; [reflexivity|].
      replace (2 ^ 32) with (2 ^ (32 - k) * 2 ^ k)
        by (rewrite <- Z.pow_add_r by lia; f_equal; lia).
      replace (smem_start - 2 ^ (32 - k) * 2 ^ k)
        with (smem_start + (- 2 ^ (32 - k)) * 2 ^ k) by lia.
      apply Z_mod_plus_full. }
    rewrite Hsm.
    pose proof (Z.mod_pos_bound smem_start (2 ^ k) Hp) as Hb.
    unfold to_int. change (2 ^ 30) with 1073741824 in Hp30.
    change (2 ^ 31) with 2147483648. change (2 ^ 32) with 4294967296.
    rewrite Z.mod_small by lia. lia. }
  rewrite Hmain. split; [reflexivity|].
  split; [apply Z.mod_pos_bound; exact Hp|].
  rewrite Zminus_mod, Z.mod_mod, Z.sub_diag by lia. apply Z.mod_0_l. lia.
Qed.

Lemma mapped_offset_in_page_witness :
  mapped_offset_of 0x01698a00 (2 ^ 12) = 0x01698a00 mod 2 ^ 12
  /\ 0 <= mapped_offset_of 0x01698a00 (2 ^ 12) < 2 ^ 12
  /\ (0x01698a00 - mapped_offset_of 0x01698a00 (2 ^ 12)) mod 2 ^ 12 = 0.
Proof.
  refine (mapped_offset_in_page 0x01698a00 12 _ _);
    [change (2 ^ 32) with 4294967296|]; lia.
Defined.

(** ** Mode initialisation, restore and power management *)

Lemma all_zero_replicate (n : nat) : all_zero (replicate n 0).
Proof. intros k w H. apply lookup_replicate in H as [-> _]. reflexivity. Qed.

(** [initFrameBuffer] returns 1 or -1, never 0. *)
Lemma initFrameBuffer_ret (e : fb_env) (d : DrvRec) :
  fst (initFrameBuffer e d) = 1 \/ fst (initFrameBuffer e d) = -1.
Proof.
  unfold initFrameBuffer. cbv zeta.
  destruct (open_result e <? 0); [right; reflexivity|].
  destruct (fscreeninfo_result e <? 0); [right; reflexivity|].
  destruct (negb (packed_pixels e)); [right; reflexivity|].
  destruct (negb (truecolor e)); [right; reflexivity|].
  destruct (mmap_result e); [|right; reflexivity].
  destruct (vscreeninfo_result e <? 0); [right | left]; reflexivity.
Qed.

(** The tables [initFrameBuffer] leaves, and the shadow surface it keeps. *)
Lemma initFrameBuffer_state (e : fb_env) (d : DrvRec) :
  tables (snd (initFrameBuffer e d))
  = initRGB2YUVTables_on (fst (tables d)) (snd (tables d))
  /\ ShadowPtr (cube (snd (initFrameBuffer e d))) = ShadowPtr (cube d)
  /\ ShadowPitch (cube (snd (initFrameBuffer e d))) = ShadowPitch (cube d)
  /\ VDisplay (cube (snd (initFrameBuffer e d))) = VDisplay (cube d).
Proof.
  unfold initFrameBuffer. cbv zeta.
  destruct (open_result e <? 0); [repeat split|].
  destruct (fscreeninfo_result e <? 0); [repeat split|].
  destruct (negb (packed_pixels e)); [repeat split|].
  destruct (negb (truecolor e)); [repeat split|].
  destruct (mmap_result e); [|repeat split].
  destruct (vscreeninfo_result e <? 0); repeat split.
Qed.

(** X16: [CUBEModeInit] returns FALSE exactly for an interlaced mode: a
    failure of [initFrameBuffer] (which returns -1, not 0) is not seen by
    the test of its result. For an interlaced mode, and for a size other
    than 640 x 480 or 640 x 576 (reported, but answered TRUE), the state
    is left untouched. *)
Theorem mode_init_false_only_if_interlaced (e : fb_env) (mode : DisplayMode)
    (d d' : DrvRec) (b : bool) :
  CUBEModeInit e mode d = Some (b, d') ->
  (b = false <-> Flags_interlace mode = true)
  /\ (Flags_interlace mode = true \/ mode_supported mode = false -> d' = d).
Proof.
  unfold CUBEModeInit, mode_supported. cbv zeta. intros Hrun.
  destruct (Flags_interlace mode).
  { injection Hrun as <- <-. split; [tauto | auto]. }
  destruct ((HDisplay mode =? 640)
            && ((mode_VDisplay mode =? 480) || (mode_VDisplay mode =? 576))).
  - cbn [negb] in Hrun.
    pose proof (initFrameBuffer_ret e d) as Hret.
    destruct (initFrameBuffer e d) as [ret d1]. cbn [fst] in Hret.
    destruct (Z.eqb_spec ret 0) as [E|_]; [lia|].
    destruct (drv_memset d1) as [d2|]; [|discriminate].
    cbn [mbind option_bind] in Hrun. injection Hrun as <- <-.
    split; [split; discriminate|]. intros [H|H]; discriminate H.
  - cbn [negb] in Hrun. injection Hrun as <- <-.
    split; [split; discriminate | auto].
Qed.

Lemma mode_init_false_only_if_interlaced_witness :
  CUBEModeInit fb_no_device mode_800x600 fresh_driver
  = Some (true, fresh_driver)
  /\ ((true = false <-> Flags_interlace mode_800x600 = true)
      /\ (Flags_interlace mode_800x600 = true
          \/ mode_supported mode_800x600 = false ->
          fresh_driver = fresh_driver)).
Proof.
  exact (conj eq_refl
           (mode_init_false_only_if_interlaced fb_no_device mode_800x600
              fresh_driver fresh_driver true eq_refl)).
Defined.

(** When [initFrameBuffer] returns 1 the frame buffer is mapped. *)
Lemma initFrameBuffer_mapped (e : fb_env) (d : DrvRec) :
  fst (initFrameBuffer e d) = 1 ->
  mem_mapped (snd (initFrameBuffer e d)) = true.
Proof.
  unfold initFrameBuffer. cbv zeta.
  destruct (open_result e <? 0); [cbn [fst]; discriminate|].
  destruct (fscreeninfo_result e <? 0); [cbn [fst]; discriminate|].
  destruct (negb (packed_pixels e)); [cbn [fst]; discriminate|].
  destruct (negb (truecolor e)); [cbn [fst]; discriminate|].
  destruct (mmap_result e); [|cbn [fst]; discriminate].
  destruct (vscreeninfo_result e <? 0); [cbn [fst]; discriminate|].
  reflexivity.
Qed.

Lemma all_zero_nil : all_zero [].
Proof. intros k w H. rewrite lookup_nil in H. discriminate H. Qed.

Lemma mode_init_post (e : fb_env) (mode : DisplayMode) (d d' : DrvRec)
    (b : bool) :
  Flags_interlace mode = false -> mode_supported mode = true ->
  chan_sized (fst (tables d)) -> rgb16_sized (snd (tables d)) ->
  CUBEModeInit e mode d = Some (b, d') ->
  b = true /\ CubeInitiated d' = true
  /\ Blanked (cube d') = false /\ all_zero (mapped_mem (cube d'))
  /\ ShadowPtr (cube d') = ShadowPtr (cube d)
  /\ ShadowPitch (cube d') = ShadowPitch (cube d)
  /\ VDisplay (cube d') = VDisplay (cube d)
  /\ tables d' = (init_chan, initRGB2YUVTables)
  /\ (fst (initFrameBuffer e d) = 1 -> mem_mapped d' = true)
  /\ (mem_mapped d' = false ->
      mapped_memlen d' = 0 /\ mapped_mem (cube d') = []).
Proof.
  unfold CUBEModeInit, mode_supported. cbv zeta.
  intros Hi Hs Hc Ht Hrun. rewrite Hi, Hs in Hrun. cbn [negb] in Hrun.
  pose proof (initFrameBuffer_ret e d) as Hret.
  pose proof (initFrameBuffer_mapped e d) as Hmap.
  destruct (initFrameBuffer_state e d) as (Htab & Hsh & Hp & Hv).
  destruct (initFrameBuffer e d) as [ret d1]. cbn [fst snd] in *.
  destruct (Z.eqb_spec ret 0) as [E|_]; [lia|].
  unfold drv_memset in Hrun.
  destruct (mem_mapped d1) eqn:Hm.
  - cbn [mbind option_bind] in Hrun. injection Hrun as <- <-.
    cbn [set_CubeInitiated set_cube set_Blanked memset_mapped set_mapped_mem
         cube CubeInitiated mem_mapped mapped_memlen tables Blanked mapped_mem
         ShadowPtr ShadowPitch VDisplay].
    rewrite Htab, (initRGB2YUVTables_on_any _ _ Hc Ht), Hm.
    split; [reflexivity|]. split; [reflexivity|]. split; [reflexivity|].
    split; [apply all_zero_replicate|]. split; [exact Hsh|].
    split; [exact Hp|]. split; [exact Hv|]. split; [reflexivity|].
    split; [reflexivity | discriminate].
  - destruct (Z.eqb_spec (mapped_memlen d1) 0) as [Hz|_]; [|discriminate].
    cbn [mbind option_bind] in Hrun. injection Hrun as <- <-.
    cbn [set_CubeInitiated set_cube set_Blanked memset_mapped set_mapped_mem
         cube CubeInitiated mem_mapped mapped_memlen tables Blanked mapped_mem
         ShadowPtr ShadowPitch VDisplay].
    rewrite Htab, (initRGB2YUVTables_on_any _ _ Hc Ht), Hm.
    split; [reflexivity|]. split; [reflexivity|]. split; [reflexivity|].
    split; [apply all_zero_nil|]. split; [exact Hsh|].
    split; [exact Hp|]. split; [exact Hv|]. split; [reflexivity|].
    split; [exact Hmap|]. intros _. split; [exact Hz | reflexivity].
Qed.

(** X17: for a progressive mode of a supported size, on tables of the
    declared sizes, whenever [CUBEModeInit] returns it answers TRUE and
    leaves the screen initiated and not blanked, the output surface
    zero-filled, the shadow surface and the geometry as they were, and
    the tables as [initRGB2YUVTables] builds them. It does not repaint the
    output from the shadow surface. If [initFrameBuffer] succeeded the
    frame buffer is mapped. The call can also return with [mapped_mem]
    NULL, the failure of [initFrameBuffer] having gone unnoticed; this
    happens only with [mapped_memlen] 0, the [memset] being of length 0,
    and the screen is then marked initiated with no word to show. *)
Theorem mode_init_leaves_zeroed_active_screen (e : fb_env)
    (mode : DisplayMode) (d d' : DrvRec) (b : bool) :
  Flags_interlace mode = false -> mode_supported mode = true ->
  chan_sized (fst (tables d)) -> rgb16_sized (snd (tables d)) ->
  CUBEModeInit e mode d = Some (b, d') ->
  b = true /\ CubeInitiated d' = true
  /\ Blanked (cube d') = false /\ all_zero (mapped_mem (cube d'))
  /\ ShadowPtr (cube d') = ShadowPtr (cube d)
  /\ ShadowPitch (cube d') = ShadowPitch (cube d)
  /\ VDisplay (cube d') = VDisplay (cube d)
  /\ tables d' = (init_chan, initRGB2YUVTables)
  /\ (fst (initFrameBuffer e d) = 1 -> mem_mapped d' = true)
  /\ (mem_mapped d' = false ->
      mapped_memlen d' = 0 /\ mapped_mem (cube d') = []).
Proof. apply mode_init_post. Qed.

Lemma fresh_mode_init (m : list Z) :
  CUBEModeInit (fb_ok m) (current_mode fresh_driver) fresh_driver
  = Some (true, initiated_driver m).
Proof. reflexivity. Qed.

Lemma mode_init_leaves_zeroed_active_screen_witness :
  CUBEModeInit (fb_ok (replicate (Z.to_nat (320 * 480)) 7))
    (current_mode fresh_driver) fresh_driver
  = Some (true, initiated_driver (replicate (Z.to_nat (320 * 480)) 7))
  /\ (true = true
      /\ CubeInitiated (initiated_driver (replicate (Z.to_nat (320 * 480)) 7))
         = true
      /\ Blanked (cube (initiated_driver (replicate (Z.to_nat (320 * 480)) 7)))
         = false
      /\ all_zero
           (mapped_mem
              (cube (initiated_driver (replicate (Z.to_nat (320 * 480)) 7))))
      /\ ShadowPtr
           (cube (initiated_driver (replicate (Z.to_nat (320 * 480)) 7)))
         = ShadowPtr (cube fresh_driver)
      /\ ShadowPitch
           (cube (initiated_driver (replicate (Z.to_nat (320 * 480)) 7)))
         = ShadowPitch (cube fresh_driver)
      /\ VDisplay
           (cube (initiated_driver (replicate (Z.to_nat (320 * 480)) 7)))
         = VDisplay (cube fresh_driver)
      /\ tables (initiated_driver (replicate (Z.to_nat (320 * 480)) 7))
         = (init_chan, initRGB2YUVTables)
      /\ (fst (initFrameBuffer (fb_ok (replicate (Z.to_nat (320 * 480)) 7))
                 fresh_driver) = 1 ->
          mem_mapped (initiated_driver (replicate (Z.to_nat (320 * 480)) 7))
          = true)
      /\ (mem_mapped (initiated_driver (replicate (Z.to_nat (320 * 480)) 7))
          = false ->
          mapped_memlen (initiated_driver (replicate (Z.to_nat (320 * 480)) 7))
          = 0
          /\ mapped_mem
               (cube (initiated_driver (replicate (Z.to_nat (320 * 480)) 7)))
             = [])).
Proof.
  exact (conj (fresh_mode_init _)
           (mode_init_leaves_zeroed_active_screen
              (fb_ok (replicate (Z.to_nat (320 * 480)) 7))
              (current_mode fresh_driver) fresh_driver
              (initiated_driver (replicate (Z.to_nat (320 * 480)) 7)) true
              eq_refl eq_refl chan_zero_sized rgb16_zero_sized
              (fresh_mode_init _))).
Defined.

(** The run in which the device cannot be opened, on the record as
    [CUBEGetRec] allocates it (zero-filled): [initFrameBuffer] returns -1,
    the [memset] of length 0 through NULL writes nothing, and
    [CUBEModeInit] answers TRUE with the screen marked initiated and
    nothing mapped. *)
Lemma mode_init_without_device :
  fst (initFrameBuffer fb_no_device fresh_driver) = -1
  /\ CUBEModeInit fb_no_device (current_mode fresh_driver) fresh_driver
     = Some (true, undetected_driver)
  /\ CubeInitiated undetected_driver = true
  /\ mem_mapped undetected_driver = false.
Proof. repeat split. Qed.

(** X18: [CUBERestore] can be called again at no cost: when it returns,
    a second call returns the same state. If the screen was initiated the
    first call leaves it blanked with a zero-filled output surface, so
    that every later [CUBERefreshArea] is without effect; if it was not,
    the first call changes nothing. *)
Theorem restore_idempotent (d d1 : DrvRec) :
  CUBERestore d = Some d1 ->
  CUBERestore d1 = Some d1
  /\ CubeInitiated d1 = false
  /\ (CubeInitiated d = false -> d1 = d)
  /\ (CubeInitiated d = true ->
      Blanked (cube d1) = true /\ all_zero (mapped_mem (cube d1))
      /\ forall (t : rgb16_tables) (boxes : list BoxRec),
           CUBERefreshArea t boxes (cube d1) = Some (cube d1)).
Proof.
  unfold CUBERestore. cbv zeta. intros Hrun.
  destruct (CubeInitiated d) eqn:Hi; cbn [negb] in Hrun.
  - unfold drv_memset in Hrun.
    cbn [set_cube set_CubeInitiated mem_mapped mapped_memlen cube] in Hrun.
    destruct (mem_mapped d).
    + injection Hrun as <-.
      cbn [set_cube set_CubeInitiated set_Blanked memset_mapped set_mapped_mem
           CubeInitiated cube Blanked mapped_mem negb].
      split; [reflexivity|]. split; [reflexivity|].
      split; [discriminate|]. intros _.
      split; [reflexivity|]. split; [apply all_zero_replicate|].
      intros t boxes. reflexivity.
    + destruct (mapped_memlen d =? 0); [|discriminate]. injection Hrun as <-.
      cbn [set_cube set_CubeInitiated set_Blanked memset_mapped set_mapped_mem
           CubeInitiated cube Blanked mapped_mem negb].
      split; [reflexivity|]. split; [reflexivity|].
      split; [discriminate|]. intros _.
      split; [reflexivity|]. split; [apply all_zero_nil|].
      intros t boxes. reflexivity.
  - injection Hrun as <-. rewrite Hi. cbn [negb].
    split; [reflexivity|]. split; [reflexivity|].
    split; [reflexivity | discriminate].
Qed.

Lemma restore_idempotent_witness :
  exists d1,
    CUBERestore (initiated_driver (replicate (Z.to_nat (320 * 480)) 7))
    = Some d1
    /\ (CUBERestore d1 = Some d1
        /\ CubeInitiated d1 = false
        /\ (CubeInitiated
              (initiated_driver (replicate (Z.to_nat (320 * 480)) 7)) = false ->
            d1 = initiated_driver (replicate (Z.to_nat (320 * 480)) 7))
        /\ (CubeInitiated
              (initiated_driver (replicate (Z.to_nat (320 * 480)) 7)) = true ->
            Blanked (cube d1) = true /\ all_zero (mapped_mem (cube d1))
            /\ forall (t : rgb16_tables) (boxes : list BoxRec),
                 CUBERefreshArea t boxes (cube d1) = Some (cube d1))).
Proof.
  refine (ex_intro _ _
            (conj eq_refl
               (restore_idempotent
                  (initiated_driver (replicate (Z.to_nat (320 * 480)) 7))
                  _ eq_refl))).
Defined.

(** X19: while the mapping exists and the previous power mode was not
    Off, [CUBEDisplayPowerManagementSet] does to the screen what
    [CUBESaveScreen] does: Standby and Suspend blank it, On unblanks it
    with a full refresh; it also records the mode. *)
Theorem dpms_matches_save_screen (e : fb_env) (d : DrvRec) :
  is_off (oldmode d) = false -> mem_mapped d = true ->
  CUBEDisplayPowerManagementSet e DPMSModeStandby d
  = (c ← CUBESaveScreen (snd (tables d)) false (cube d);
     Some (set_oldmode DPMSModeStandby (set_cube c d)))
  /\ CUBEDisplayPowerManagementSet e DPMSModeSuspend d
     = (c ← CUBESaveScreen (snd (tables d)) false (cube d);
        Some (set_oldmode DPMSModeSuspend (set_cube c d)))
  /\ CUBEDisplayPowerManagementSet e DPMSModeOn d
     = (c ← CUBESaveScreen (snd (tables d)) true (cube d);
        Some (set_oldmode DPMSModeOn (set_cube c d))).
Proof.
  intros Ho Hm. unfold CUBEDisplayPowerManagementSet, CUBESaveScreen.
  rewrite Ho. cbn [andb mbind option_bind negb]. unfold drv_memset.
  cbn [set_cube mem_mapped cube]. rewrite Hm.
  cbn [mbind option_bind]. repeat split.
  destruct (CUBERefreshAll (snd (tables d)) (set_Blanked false (cube d)));
    reflexivity.
Qed.

Lemma dpms_matches_save_screen_witness :
  CUBEDisplayPowerManagementSet fb_no_device DPMSModeStandby
    (initiated_driver (replicate (Z.to_nat (320 * 480)) 7))
  = (c ← CUBESaveScreen
           (snd (tables (initiated_driver (replicate (Z.to_nat (320 * 480)) 7))))
           false
           (cube (initiated_driver (replicate (Z.to_nat (320 * 480)) 7)));
     Some (set_oldmode DPMSModeStandby
             (set_cube c (initiated_driver (replicate (Z.to_nat (320 * 480)) 7)))))
  /\ CUBEDisplayPowerManagementSet fb_no_device DPMSModeSuspend
       (initiated_driver (replicate (Z.to_nat (320 * 480)) 7))
     = (c ← CUBESaveScreen
              (snd (tables (initiated_driver (replicate (Z.to_nat (320 * 480)) 7))))
              false
              (cube (initiated_driver (replicate (Z.to_nat (320 * 480)) 7)));
        Some (set_oldmode DPMSModeSuspend
                (set_cube c (initiated_driver (replicate (Z.to_nat (320 * 480)) 7)))))
  /\ CUBEDisplayPowerManagementSet fb_no_device DPMSModeOn
       (initiated_driver (replicate (Z.to_nat (320 * 480)) 7))
     = (c ← CUBESaveScreen
              (snd (tables (initiated_driver (replicate (Z.to_nat (320 * 480)) 7))))
              true
              (cube (initiated_driver (replicate (Z.to_nat (320 * 480)) 7)));
        Some (set_oldmode DPMSModeOn
                (set_cube c (initiated_driver (replicate (Z.to_nat (320 * 480)) 7))))).
Proof.
  exact (dpms_matches_save_screen fb_no_device
           (initiated_driver (replicate (Z.to_nat (320 * 480)) 7))
           eq_refl eq_refl).
Defined.

Lemma restore_keeps (d r : DrvRec) :
  CUBERestore d = Some r ->
  ShadowPtr (cube r) = ShadowPtr (cube d)
  /\ ShadowPitch (cube r) = ShadowPitch (cube d)
  /\ VDisplay (cube r) = VDisplay (cube d)
  /\ tables r = tables d
  /\ cur_interlace r = cur_interlace d /\ cur_HDisplay r = cur_HDisplay d.
Proof.
  unfold CUBERestore, drv_memset. cbv zeta. intros Hrun.
  destruct (CubeInitiated d); cbn [negb] in Hrun.
  - cbn [set_cube set_CubeInitiated mem_mapped mapped_memlen] in Hrun.
    destruct (mem_mapped d).
    + injection Hrun as <-. repeat split.
    + destruct (mapped_memlen d =? 0); [|discriminate].
      injection Hrun as <-. repeat split.
  - injection Hrun as <-. repeat split.
Qed.

(** X20: power mode Off followed by On brings the picture back. On a
    screen of pitch 1280 in a progressive mode of supported size, when
    both calls of [CUBEDisplayPowerManagementSet] return, the second one
    has initialised the mode again and refreshed the whole screen: the
    screen is initiated and not blanked, every word of the 640 x VDisplay
    frame is the macropixel of its two shadow pixels, and every later
    word is zero. *)
Theorem dpms_off_on_repaints (e e' : fb_env) (d d1 d2 : DrvRec) :
  cur_interlace d = false -> mode_supported (current_mode d) = true ->
  ShadowPitch (cube d) = 1280 ->
  chan_sized (fst (tables d)) -> rgb16_sized (snd (tables d)) ->
  CUBEDisplayPowerManagementSet e DPMSModeOff d = Some d1 ->
  CUBEDisplayPowerManagementSet e' DPMSModeOn d1 = Some d2 ->
  oldmode d2 = DPMSModeOn /\ CubeInitiated d2 = true
  /\ Blanked (cube d2) = false
  /\ ShadowPtr (cube d2) = ShadowPtr (cube d)
  /\ (forall k : nat,
        (k < Z.to_nat (320 * VDisplay (cube d)))%nat ->
        mapped_mem (cube d2) !! k
        = Some (pair_word initRGB2YUVTables (ShadowPtr (cube d)) k))
  /\ (forall (k : nat) (w : Z),
        (Z.to_nat (320 * VDisplay (cube d)) <= k)%nat ->
        mapped_mem (cube d2) !! k = Some w -> w = 0).
Proof.
  intros Hi Hs Hp Hc Ht Hoff Hon.
  (* the call with Off: no mode initialisation, then CUBERestore *)
  unfold CUBEDisplayPowerManagementSet in Hoff.
  cbn [is_off negb] in Hoff. rewrite andb_false_r in Hoff.
  cbn [mbind option_bind] in Hoff.
  destruct (CUBERestore d) as [r|] eqn:Hr; [|discriminate].
  cbn [mbind option_bind] in Hoff. injection Hoff as <-.
  destruct (restore_keeps d r Hr) as (Rsh & Rp & Rv & Rt & Ri & Rh).
  (* the call with On: mode initialisation, then the full refresh *)
  unfold CUBEDisplayPowerManagementSet in Hon.
  cbn [set_oldmode oldmode is_off negb andb] in Hon.
  destruct (CUBEModeInit e' (current_mode (set_oldmode DPMSModeOff r))
              (set_oldmode DPMSModeOff r)) as [[b a]|] eqn:Hm;
    [|discriminate].
  cbn [fmap option_fmap option_map mbind option_bind snd] in Hon.
  assert (Mi : Flags_interlace (current_mode (set_oldmode DPMSModeOff r))
               = false).
  { cbn [current_mode set_oldmode Flags_interlace cur_interlace].
    rewrite Ri. exact Hi. }
  assert (Ms : mode_supported (current_mode (set_oldmode DPMSModeOff r))
               = true).
  { unfold mode_supported, current_mode in *.
    cbn [set_oldmode HDisplay mode_VDisplay cur_HDisplay cube] in *.
    rewrite Rh, Rv. exact Hs. }
  assert (Mc : chan_sized (fst (tables (set_oldmode DPMSModeOff r))))
    by (cbn [set_oldmode tables]; rewrite Rt; exact Hc).
  assert (Mt : rgb16_sized (snd (tables (set_oldmode DPMSModeOff r))))
    by (cbn [set_oldmode tables]; rewrite Rt; exact Ht).
  destruct (mode_init_post e' _ _ a b Mi Ms Mc Mt Hm)
    as (_ & Ai & _ & Az & Ash & Ap & Av & At & _).
  cbn [set_oldmode cube] in Ash, Ap, Av.
  assert (Hfit : -32768 <= VDisplay (cube a) <= 32767).
  { unfold mode_supported, current_mode in Hs.
    cbn [HDisplay mode_VDisplay] in Hs.
    apply andb_true_iff in Hs as [_ Hs]. apply orb_true_iff in Hs.
    rewrite !Z.eqb_eq in Hs. rewrite Av, Rv. lia. }
  rewrite At in Hon. cbn [snd] in Hon.
  rewrite refresh_all_run in Hon
    by (cbn [set_Blanked ShadowPitch Blanked VDisplay];
        first [congruence | exact Hfit]).
  cbn [set_Blanked VDisplay ShadowPtr mapped_mem] in Hon.
  destruct (count (VDisplay (cube a))) as [h|] eqn:Eh; [|discriminate].
  cbn [mbind option_bind] in Hon.
  destruct (pair_loop initRGB2YUVTables (ShadowPtr (cube a)) (h * 320) 0 0
              (mapped_mem (cube a))) as [[[s1 s2] o]|] eqn:Er;
    [|discriminate].
  cbn [mbind option_bind] in Hon. injection Hon as <-.
  cbn [set_oldmode set_cube set_mapped_mem oldmode CubeInitiated cube Blanked
       ShadowPtr mapped_mem].
  apply (pair_loop_words initRGB2YUVTables (ShadowPtr (cube a)) _ 0%nat)
    in Er as (_ & _ & _ & Hk).
  assert (Hh : (h * 320)%nat = Z.to_nat (320 * VDisplay (cube d))).
  { unfold count in Eh. destruct (VDisplay (cube a) <? 0); [discriminate|].
    injection Eh as <-. rewrite Av, Rv. lia. }
  split; [reflexivity|]. split; [exact Ai|]. split; [reflexivity|].
  split; [rewrite <- Rsh, <- Ash; reflexivity|]. split.
  - intros k Hlt. rewrite Hk.
    destruct (decide (0 <= k < 0 + h * 320)%nat); [|lia].
    rewrite Ash, Rsh. reflexivity.
  - intros k w Hge Hw. rewrite Hk in Hw.
    destruct (decide (0 <= k < 0 + h * 320)%nat); [lia|].
    exact (Az k w Hw).
Qed.

(** Bring the record updates of a state to record literals. *)
Ltac state_literals :=
  unfold set_oldmode, set_cube, set_CubeInitiated, set_mem_mapped,
    set_mapped_memlen, set_tables, memset_mapped, set_Blanked, set_mapped_mem;
  cbn [cube CubeInitiated mem_mapped mapped_memlen tables cur_interlace
       cur_HDisplay oldmode ShadowPtr ShadowPitch Blanked mapped_mem
       VDisplay].

(** [CUBEModeInit] when the operating system maps the words [m]. *)
Lemma mode_init_ok (m : list Z) (d : DrvRec) :
  cur_interlace d = false -> mode_supported (current_mode d) = true ->
  CUBEModeInit (fb_ok m) (current_mode d) d
  = Some (true,
          {| cube := set_Blanked false
                       (set_mapped_mem (replicate (length m) 0) (cube d));
             CubeInitiated := true; mem_mapped := true;
             mapped_memlen := fb_memlen (fb_ok m);
             tables := initRGB2YUVTables_on (fst (tables d)) (snd (tables d));
             cur_interlace := cur_interlace d;
             cur_HDisplay := cur_HDisplay d; oldmode := oldmode d |}).
Proof.
  destruct d as [c i mm ml tb ci ch om].
  unfold CUBEModeInit, mode_supported, current_mode, initFrameBuffer,
    drv_memset, fb_ok.
  cbn [cube CubeInitiated mem_mapped mapped_memlen tables cur_interlace
       cur_HDisplay oldmode Flags_interlace HDisplay mode_VDisplay open_result
       fscreeninfo_result packed_pixels truecolor mmap_result
       vscreeninfo_result].
  intros -> ->. cbv zeta.
  change (3 <? 0) with false. change (0 <? 0) with false.
  cbn [negb]. state_literals. change (1 =? 0) with false. cbv iota.
  cbn [mbind option_bind]. state_literals. reflexivity.
Qed.

(** Power mode Off on an initiated screen whose mapping exists. *)
Lemma dpms_off_initiated (e : fb_env) (d : DrvRec) :
  CubeInitiated d = true -> mem_mapped d = true ->
  CUBEDisplayPowerManagementSet e DPMSModeOff d
  = Some {| cube := memset_mapped (set_Blanked true (cube d));
            CubeInitiated := false; mem_mapped := true;
            mapped_memlen := mapped_memlen d; tables := tables d;
            cur_interlace := cur_interlace d; cur_HDisplay := cur_HDisplay d;
            oldmode := DPMSModeOff |}.
Proof.
  destruct d as [c i mm ml tb ci ch om].
  cbn [CubeInitiated mem_mapped cube mapped_memlen tables cur_interlace
       cur_HDisplay]. intros -> ->.
  unfold CUBEDisplayPowerManagementSet, CUBERestore, drv_memset.
  cbn [is_off negb andb oldmode]. rewrite andb_false_r.
  cbn [mbind option_bind CubeInitiated negb]. cbv zeta.
  unfold set_oldmode, set_cube, set_CubeInitiated.
  cbn [cube CubeInitiated mem_mapped mapped_memlen tables cur_interlace
       cur_HDisplay oldmode mbind option_bind].
  reflexivity.
Qed.

Lemma memset_blanked_zeroed (c : CUBERec) (n : nat) :
  memset_mapped (set_Blanked true (set_mapped_mem (replicate n 0) c))
  = set_Blanked true (set_mapped_mem (replicate n 0) c).
Proof.
  unfold memset_mapped, set_Blanked, set_mapped_mem.
  cbn [ShadowPtr ShadowPitch Blanked mapped_mem VDisplay].
  rewrite length_replicate. reflexivity.
Qed.

Lemma off_driver_run :
  CUBEDisplayPowerManagementSet fb_no_device DPMSModeOff
    (initiated_driver mapped_garbage) = Some off_driver.
Proof.
  rewrite (dpms_off_initiated fb_no_device (initiated_driver mapped_garbage)
             eq_refl eq_refl).
  unfold off_driver, initiated_driver.
  cbn [cube mapped_memlen tables cur_interlace cur_HDisplay].
  rewrite (memset_blanked_zeroed (black_surface 480) (length mapped_garbage)).
  reflexivity.
Qed.

Lemma unblank_remapped (c : CUBERec) (o : list Z) :
  Blanked c = false ->
  set_Blanked false
    (set_Blanked false
       (set_mapped_mem o (set_Blanked true (set_mapped_mem o c))))
  = set_mapped_mem o c.
Proof. destruct c. cbn. intros ->. reflexivity. Qed.

(** Power mode On right after Off, when the operating system maps the
    words [m]: the mode is initialised again, then the screen refreshed. *)
Lemma dpms_on_after_off (m : list Z) (d : DrvRec) :
  oldmode d = DPMSModeOff -> cur_interlace d = false ->
  mode_supported (current_mode d) = true ->
  CUBEDisplayPowerManagementSet (fb_ok m) DPMSModeOn d
  = (c ← CUBERefreshAll
           (snd (initRGB2YUVTables_on (fst (tables d)) (snd (tables d))))
           (set_Blanked false
              (set_Blanked false
                 (set_mapped_mem (replicate (length m) 0) (cube d))));
     Some {| cube := c; CubeInitiated := true; mem_mapped := true;
             mapped_memlen := fb_memlen (fb_ok m);
             tables := initRGB2YUVTables_on (fst (tables d)) (snd (tables d));
             cur_interlace := cur_interlace d;
             cur_HDisplay := cur_HDisplay d; oldmode := DPMSModeOn |}).
Proof.
  intros Ho Hi Hs. unfold CUBEDisplayPowerManagementSet.
  rewrite (mode_init_ok m d Hi Hs), Ho.
  cbn [is_off negb andb fmap option_fmap option_map mbind option_bind snd
       cube tables].
  destruct (CUBERefreshAll _ _); reflexivity.
Qed.

Lemma on_driver_run :
  CUBEDisplayPowerManagementSet (fb_ok mapped_garbage) DPMSModeOn off_driver
  = Some on_driver.
Proof.
  rewrite (dpms_on_after_off mapped_garbage off_driver eq_refl eq_refl eq_refl).
  unfold off_driver, on_driver.
  cbn [cube tables cur_interlace cur_HDisplay].
  assert (Hlen : length (replicate (length mapped_garbage) 0)
                 = Z.to_nat (320 * 480))
    by (unfold mapped_garbage; rewrite !length_replicate; reflexivity).
  revert Hlen.
  generalize (replicate (length mapped_garbage) 0).
  generalize (initRGB2YUVTables_on
                (fst (initRGB2YUVTables_on chan_zero rgb16_zero))
                (snd (initRGB2YUVTables_on chan_zero rgb16_zero))).
  intros T o Hlen.
  rewrite (unblank_remapped (black_surface 480) o eq_refl).
  rewrite (refresh_all_black (snd T) 480 o ltac:(lia) Hlen).
  reflexivity.
Qed.

Lemma dpms_off_on_repaints_witness :
  CUBEDisplayPowerManagementSet fb_no_device DPMSModeOff
    (initiated_driver mapped_garbage) = Some off_driver
  /\ CUBEDisplayPowerManagementSet (fb_ok mapped_garbage) DPMSModeOn
       off_driver = Some on_driver
  /\ (oldmode on_driver = DPMSModeOn /\ CubeInitiated on_driver = true
      /\ Blanked (cube on_driver) = false
      /\ ShadowPtr (cube on_driver)
         = ShadowPtr (cube (initiated_driver mapped_garbage))
      /\ (forall k : nat,
            (k < Z.to_nat
                   (320 * VDisplay (cube (initiated_driver mapped_garbage))))%nat ->
            mapped_mem (cube on_driver) !! k
            = Some (pair_word initRGB2YUVTables
                      (ShadowPtr (cube (initiated_driver mapped_garbage))) k))
      /\ (forall (k : nat) (w : Z),
            (Z.to_nat
               (320 * VDisplay (cube (initiated_driver mapped_garbage))) <= k)%nat ->
            mapped_mem (cube on_driver) !! k = Some w -> w = 0)).
Proof.
  refine (conj off_driver_run (conj on_driver_run
            (dpms_off_on_repaints fb_no_device (fb_ok mapped_garbage)
               (initiated_driver mapped_garbage) off_driver on_driver
               eq_refl eq_refl eq_refl _ _ off_driver_run on_driver_run))).
  - cbn [initiated_driver tables].
    rewrite (initRGB2YUVTables_on_any _ _ chan_zero_sized rgb16_zero_sized).
    exact init_chan_sized.
  - cbn [initiated_driver tables].
    rewrite (initRGB2YUVTables_on_any _ _ chan_zero_sized rgb16_zero_sized).
    exact init_tables_sized.
Defined.
